(** * use-color-luminance: a shallow embedding of [src/useColorLuminance.ts]

    The development follows the TypeScript source: the ECMAScript built-ins
    the source calls ([parseInt], [Number], [String.prototype.match] for the
    one pattern of the file, [Array.prototype.sort], [Array.prototype.join],
    number-to-string conversion) come first, then the functions of the
    source under their own names, then the properties.

    JavaScript numbers are IEEE 754 binary64 values: they are modelled by
    Rocq's primitive floats, which are the same format with the same
    round-to-nearest-even arithmetic.  The one operation binary64 arithmetic
    does not fix is exponentiation ([**]), which ECMAScript leaves
    implementation-approximated: it is a variable of the section that holds
    the source functions.

    JavaScript strings are modelled by [string]: sequences of code units, of
    which the model covers the 8-bit ones.

    The module-level [CACHE] is an object literal.  Its own entries are a
    finite map from strings to numbers, threaded through the calls; reading
    it also reaches the members it inherits from [Object.prototype], as
    the language defines that object. *)

From Stdlib Require Import ZArith QArith Qround Qabs Floats String Ascii List Bool Lia.
From Stdlib Require Import DecimalString DecimalPos.
From stdpp Require Import base option gmap strings.

Set Warnings "-inexact-float".
Local Open Scope string_scope.

(** ** ECMAScript built-ins *)

Module JS.

(** *** Integers and ratios as numbers *)

(** The number nearest to the integer [z] (ties to even). *)
Definition Z2number (z : Z) : float :=
  SF2Prim (binary_normalize prec emax z 0 false).

(** The number nearest to [num / den] (ties to even), for [0 <= num] and
    [0 < den].  The quotient is computed with more than 64 significant bits
    and a sticky last bit, then rounded once. *)
Definition ratio2number (num den : Z) : float :=
  if (num =? 0)%Z then 0%float else
  let sh := (Z.log2 den + 66)%Z in
  let scaled := Z.shiftl num sh in
  let q := (scaled / den)%Z in
  let q' := if (scaled mod den =? 0)%Z then q else Z.lor q 1 in
  SF2Prim (binary_normalize prec emax q' (- sh) false).

(** ToBoolean on a number: [+0], [-0] and [NaN] are falsy. *)
Definition ToBoolean (v : float) : bool :=
  negb (PrimFloat.eqb v 0) && PrimFloat.eqb v v.

(** *** Characters *)

Definition is_digit (c : ascii) : bool :=
  let n := N_of_ascii c in ((48 <=? n) && (n <=? 57))%N.

Definition digit_value (c : ascii) : Z := Z.of_N (N_of_ascii c) - 48.

(** Value of a digit of radix 16, in either case. *)
Definition hex_value (c : ascii) : option Z :=
  let n := N_of_ascii c in
  if ((48 <=? n) && (n <=? 57))%N then Some (Z.of_N n - 48)%Z
  else if ((97 <=? n) && (n <=? 102))%N then Some (Z.of_N n - 87)%Z
  else if ((65 <=? n) && (n <=? 70))%N then Some (Z.of_N n - 55)%Z
  else None.

Definition is_hex (c : ascii) : bool :=
  match hex_value c with Some _ => true | None => false end.

(** White space and line terminators among the 8-bit code units. *)
Definition is_white (c : ascii) : bool :=
  let n := N_of_ascii c in
  ((9 <=? n) && (n <=? 13) || (n =? 32) || (n =? 160))%N.

Arguments is_digit : simpl never.
Arguments hex_value : simpl never.
Arguments is_white : simpl never.

(** *** Strings *)

(** [s.slice(from, to)] for [0 <= from <= to]. *)
Definition slice (from to : nat) (s : string) : string :=
  String.substring from (to - from) s.

(** [s.slice(from)]. *)
Definition slice_from (from : nat) (s : string) : string :=
  String.substring from (String.length s - from) s.

(** [s[i]] as a string, for [i] below the length of [s]. *)
Definition at_index (i : nat) (s : string) : string :=
  String.substring i 1 s.

(** [s.replace(/ /g, '')]: every U+0020 is removed. *)
Fixpoint remove_spaces (s : string) : string :=
  match s with
  | EmptyString => EmptyString
  | String c s' =>
      if Ascii.eqb c " " then remove_spaces s' else String c (remove_spaces s')
  end.

(** Longest prefix of decimal digits, and what follows it. *)
Fixpoint span_digits (s : string) : string * string :=
  match s with
  | String c s' =>
      if is_digit c
      then let (d, r) := span_digits s' in (String c d, r)
      else (EmptyString, s)
  | EmptyString => (EmptyString, EmptyString)
  end.

(** Value of a string of decimal digits, most significant first. *)
Fixpoint digits_value_from (acc : Z) (s : string) : Z :=
  match s with
  | EmptyString => acc
  | String c s' => digits_value_from (10 * acc + digit_value c) s'
  end.

Definition digits_value (s : string) : Z := digits_value_from 0 s.

(** *** [Number(s)]

    StringToNumber on the literals the source can pass to it: the empty
    string, and an unsigned decimal literal without exponent ([ddd],
    [ddd.], [ddd.ddd], [.ddd]).  The groups captured by the pattern of the
    source are of this shape (lemma [RGBA_at_sound] below); signs, white
    space, exponents and the other literals of the full grammar are not
    covered and map to [NaN] here. *)
Definition Number (s : string) : float :=
  let (ip, rest) := span_digits s in
  match rest with
  | EmptyString =>
      match ip with
      | EmptyString => 0%float
      | _ => Z2number (digits_value ip)
      end
  | String "."%char fp =>
      let (fd, rest') := span_digits fp in
      match rest', (ip +:+ fd) with
      | EmptyString, String _ _ =>
          ratio2number (digits_value (ip +:+ fd)) (10 ^ Z.of_nat (String.length fd))
      | _, _ => nan
      end
  | _ => nan
  end.

(** *** [parseInt(s, 16)] *)

Fixpoint trim_start (s : string) : string :=
  match s with
  | String c s' => if is_white c then trim_start s' else s
  | EmptyString => EmptyString
  end.

(** Value of the longest prefix of radix-16 digits; [None] when it is empty. *)
Fixpoint hex_prefix (acc : option Z) (s : string) : option Z :=
  match s with
  | String c s' =>
      match hex_value c with
      | Some d =>
          hex_prefix (Some (16 * (match acc with Some a => a | None => 0 end) + d)%Z) s'
      | None => acc
      end
  | EmptyString => acc
  end.

Definition parseInt16 (s : string) : float :=
  let s1 := trim_start s in
  let '(neg, s2) :=
    match s1 with
    | String "-"%char r => (true, r)
    | String "+"%char r => (false, r)
    | _ => (false, s1)
    end in
  let s3 :=
    match s2 with
    | String "0"%char (String "x"%char r) => r
    | String "0"%char (String "X"%char r) => r
    | _ => s2
    end in
  match hex_prefix None s3 with
  | None => nan
  | Some z => if neg then (- Z2number z)%float else Z2number z
  end.

(** *** Number to string (Number::toString, radix 10) *)

Definition decimal (z : Z) : string :=
  NilZero.string_of_uint (N.to_uint (Z.to_N z)).

Fixpoint zeros (n : nat) : string :=
  match n with O => EmptyString | S n' => String "0" (zeros n') end.

Definition pow10 (p : Z) : Q := Qpower (10 # 1) p.

(** The decimals [s * 10^(n-k)] with [k] digits ([10^(k-1) <= s < 10^k])
    that round to the number whose value is [x] and whose rounding interval
    is [lo, hi] (closed when [closed]); each with its distance to [x]. *)
Definition candidates (x lo hi : Q) (closed : bool) (k n : Z) : list (Q * Z * Z) :=
  let p := (n - k)%Z in
  let f := Qfloor (x / pow10 p) in
  let ok (s : Z) :=
    let v := (inject_Z s * pow10 p)%Q in
    ((10 ^ (k - 1) <=? s)%Z && (s <? 10 ^ k)%Z
     && (if closed then Qle_bool lo v && Qle_bool v hi
         else negb (Qle_bool v lo) && negb (Qle_bool hi v)))%bool in
  let entry (s : Z) := (Qred (Qabs (inject_Z s * pow10 p - x)), s, n) in
  List.map entry (List.filter ok (f :: (f + 1)%Z :: nil)).

(** The closest candidate; of two equally close ones, the even one. *)
Definition closer (a b : Q * Z * Z) : Q * Z * Z :=
  let '(da, sa, _) := a in
  let '(db, sb, _) := b in
  if Qle_bool da db
  then (if Qle_bool db da then (if Z.even sa then a else b) else a)
  else b.

Fixpoint closest (l : list (Q * Z * Z)) : option (Q * Z * Z) :=
  match l with
  | nil => None
  | a :: l' =>
      match closest l' with
      | None => Some a
      | Some b => Some (closer a b)
      end
  end.

(** First guess of [n] with [10^(n-1) <= x < 10^n], exact up to one. *)
Definition magnitude (x : Q) : Z :=
  if Qle_bool 1 x
  then Z.of_nat (String.length (decimal (Qfloor x)))
  else (1 - Z.of_nat (String.length (decimal (Qfloor (/ x)))))%Z.

(** Smallest [k], tried upwards from [k], for which a candidate exists, with
    the digits [s] and the exponent [n] of the closest one. *)
Fixpoint shortest (fuel : nat) (x lo hi : Q) (closed : bool) (k : Z) : Z * Z * Z :=
  let n0 := magnitude x in
  let all :=
    List.flat_map (candidates x lo hi closed k)
      ((n0 - 2) :: (n0 - 1) :: n0 :: (n0 + 1) :: (n0 + 2) :: nil)%Z in
  match closest all, fuel with
  | Some (_, s, n), _ => (k, s, n)
  | None, S fuel' => shortest fuel' x lo hi closed (k + 1)
  | None, O => (k, 0, 0)%Z
  end.

(** The text of a positive finite number from its digits [ds] and [n]. *)
Definition layout (ds : string) (n : Z) : string :=
  let k := Z.of_nat (String.length ds) in
  if ((k <=? n) && (n <=? 21))%Z then
    ds +:+ zeros (Z.to_nat (n - k))
  else if ((0 <? n) && (n <=? 21))%Z then
    String.substring 0 (Z.to_nat n) ds +:+ "." +:+
    String.substring (Z.to_nat n) (Z.to_nat (k - n)) ds
  else if ((-6 <? n) && (n <=? 0))%Z then
    "0." +:+ zeros (Z.to_nat (- n)) +:+ ds
  else
    let e := (n - 1)%Z in
    let sign := if (e <? 0)%Z then "-" else "+" in
    if (k =? 1)%Z then ds +:+ "e" +:+ sign +:+ decimal (Z.abs e)
    else String.substring 0 1 ds +:+ "." +:+
         String.substring 1 (Z.to_nat (k - 1)) ds +:+
         "e" +:+ sign +:+ decimal (Z.abs e).

(** ToString of the positive number [m * 2^e].  The reals that round to it
    lie within half the distance to each neighbour; the lower neighbour is
    twice as close when [m] is a power of two above the subnormals. *)
Definition positive_to_string (m : positive) (e : Z) : string :=
  let x := (inject_Z (Z.pos m) * Qpower 2 e)%Q in
  let half := Qpower 2 (e - 1) in
  let below :=
    if ((Z.pos m =? 2 ^ 52) && (-1074 <? e))%Z then (half / 2)%Q else half in
  let '(_, s, n) :=
    shortest 17 (Qred x) (Qred (x - below)) (Qred (x + half))
             (Z.even (Z.pos m)) 1 in
  layout (decimal s) n.

Definition Number_toString (v : float) : string :=
  match Prim2SF v with
  | S754_nan => "NaN"
  | S754_zero _ => "0"
  | S754_infinity s => if s then "-Infinity" else "Infinity"
  | S754_finite s m e =>
      (if s then "-" else "") +:+ positive_to_string m e
  end.

(** *** Values

    The values the source meets: numbers; the members that every object
    literal inherits from [Object.prototype], which the source can read out
    of [CACHE] and which are named here by their key; the strings that [+]
    makes of them; [undefined]. *)
Inductive Value :=
  | Num (n : float)
  | Member (key : string)
  | Text (s : string)
  | Undefined.

Coercion Num : float >-> Value.

(** The keys of [Object.prototype] (those of Annex B included). *)
Definition Object_prototype_keys : list string :=
  [ "constructor"; "hasOwnProperty"; "isPrototypeOf"; "propertyIsEnumerable";
    "toLocaleString"; "toString"; "valueOf"; "__proto__";
    "__defineGetter__"; "__defineSetter__"; "__lookupGetter__";
    "__lookupSetter__" ].

Definition inherited (key : string) : bool :=
  existsb (String.eqb key) Object_prototype_keys.

(** The text of a member.  [__proto__] reads the prototype, an object; the
    other members are built-in functions, [constructor] being [Object].
    The text of a built-in function is the one V8 gives; the layout is left
    to the implementation, the word [function] in front is not. *)
Definition Member_toString (key : string) : string :=
  if String.eqb key "__proto__" then "[object Object]"
  else "function " +:+ (if String.eqb key "constructor" then "Object" else key)
       +:+ "() { [native code] }".

Definition ToString (v : Value) : string :=
  match v with
  | Num n => Number_toString n
  | Member key => Member_toString key
  | Text s => s
  | Undefined => "undefined"
  end.

(** ToNumber.  An object is first turned into its text.  [Number] is right
    on the texts that arise here: none of them is a numeric literal. *)
Definition ToNumber (v : Value) : float :=
  match v with
  | Num n => n
  | Member key => Number (Member_toString key)
  | Text s => Number s
  | Undefined => nan
  end.

(** ToBoolean on a value: objects are truthy, [undefined] and the empty
    string are falsy. *)
Definition truthy (v : Value) : bool :=
  match v with
  | Num n => ToBoolean n
  | Member _ => true
  | Text s => negb (String.eqb s "")
  | Undefined => false
  end.

(** [v + n] for a number [n]: a sum of numbers, unless [v] is an object or
    a string, in which case the texts are joined. *)
Definition plus (v : Value) (n : float) : Value :=
  match v with
  | Num x => Num (x + n)
  | Member key => Text (Member_toString key +:+ Number_toString n)
  | Text s => Text (s +:+ Number_toString n)
  | Undefined => Num nan
  end.

(** [a / b]. *)
Definition divide (a b : Value) : float := (ToNumber a / ToNumber b)%float.

(** [v < n] for a number [n]: [n] is no string, so that both sides are
    turned into numbers. *)
Definition less_than (v : Value) (n : float) : bool := (ToNumber v <? n)%float.

(** *** [Array.prototype.join] on numbers and [Array.prototype.sort] *)

Fixpoint join (sep : string) (l : list float) : string :=
  match l with
  | nil => EmptyString
  | x :: nil => Number_toString x
  | x :: l' => Number_toString x +:+ sep +:+ join sep l'
  end.

(** The default comparison of [sort]: [undefined] goes last, and the other
    elements are compared as strings, code unit by code unit. *)
Definition SortCompare (x y : Value) : comparison :=
  match x, y with
  | Undefined, Undefined => Eq
  | Undefined, _ => Gt
  | _, Undefined => Lt
  | _, _ => String.compare (ToString x) (ToString y)
  end.

Fixpoint sort_insert (x : Value) (l : list Value) : list Value :=
  match l with
  | nil => x :: nil
  | y :: l' =>
      match SortCompare x y with
      | Gt => y :: sort_insert x l'
      | _ => x :: y :: l'
      end
  end.

(** A stable sort by [SortCompare]. *)
Fixpoint sort (l : list Value) : list Value :=
  match l with
  | nil => nil
  | x :: l' => sort_insert x (sort l')
  end.

(** *** The pattern of the source *)

(** The text of the regular expression literal [RGBA_PATTERN]. *)
Definition RGBA_PATTERN : string :=
  "rgba?\(([0-9]+),([0-9]+),([0-9]+)(?:,(1|0|0?\.[0-9]*))?\)".

(** [RGBA_at] matches the pattern at the start of a string and returns the
    four groups with the text after the match.  Every repetition of the
    pattern is followed by a character it cannot itself consume, so the
    greedy choice is the only one that can succeed and the matcher never has
    to retry a shorter repetition; [RGBA_at_sound] and [RGBA_at_complete]
    state that it decides the language of the pattern. *)

Record Groups := mkGroups
  { group1 : string; group2 : string; group3 : string; group4 : option string }.

(** The literal characters [lit]. *)
Fixpoint expect (lit s : string) : option string :=
  match lit, s with
  | EmptyString, _ => Some s
  | String a lit', String b s' => if Ascii.eqb a b then expect lit' s' else None
  | String _ _, EmptyString => None
  end.

(** One or more decimal digits. *)
Definition digits1 (s : string) : option (string * string) :=
  match span_digits s with
  | (EmptyString, _) => None
  | (d, r) => Some (d, r)
  end.

(** The fourth group (a 1, or a 0, or an optional 0, a dot and any number
    of digits) followed by the closing parenthesis: the alternatives are
    tried in order, each with what follows the group. *)
Definition alpha_close (s : string) : option (string * string) :=
  match expect "1)" s with
  | Some r => Some ("1", r)
  | None =>
  match expect "0)" s with
  | Some r => Some ("0", r)
  | None =>
      let '(z, s0) :=
        match expect "0" s with Some r => ("0", r) | None => ("", s) end in
      s1 ← expect "." s0;
      let '(d, s2) := span_digits s1 in
      r ← expect ")" s2;
      Some (z +:+ "." +:+ d, r)
  end end.

Definition RGBA_at (s : string) : option (Groups * string) :=
  s ← expect "rgb" s;
  let s := default s (expect "a" s) in
  s ← expect "(" s;
  '(g1, s) ← digits1 s;
  s ← expect "," s;
  '(g2, s) ← digits1 s;
  s ← expect "," s;
  '(g3, s) ← digits1 s;
  match expect "," s ≫= alpha_close with
  | Some (a, r) => Some (mkGroups g1 g2 g3 (Some a), r)
  | None => r ← expect ")" s; Some (mkGroups g1 g2 g3 None, r)
  end.

Arguments digits1 : simpl never.
Arguments alpha_close : simpl never.

(** [s.match(RGBA_PATTERN)]: the pattern has no anchor and no flag, so the
    result is the leftmost match, wherever it starts. *)
Fixpoint RGBA_match (s : string) : option Groups :=
  match RGBA_at s with
  | Some (g, _) => Some g
  | None =>
      match s with
      | EmptyString => None
      | String _ s' => RGBA_match s'
      end
  end.

(** *** A sample exponentiation

    [exp (y * ln x)] by power series, for a base in (0, 1].  It instantiates
    the exponentiation of the source where a property assumes something of
    it; it returns exactly 1 on the base 1. *)

Fixpoint atanh_terms (n : nat) (t2 term : float) (k : float) : float :=
  match n with
  | O => 0%float
  | S n' => (term / k + atanh_terms n' t2 (term * t2) (k + 2))%float
  end.

Definition ln_series (x : float) : float :=
  let t := ((x - 1) / (x + 1))%float in
  (2 * atanh_terms 400 (t * t) t 1)%float.

Fixpoint exp_terms (n : nat) (w term : float) (k : float) : float :=
  match n with
  | O => 0%float
  | S n' => (term + exp_terms n' w (term * w / k) (k + 1))%float
  end.

Definition pow_series (x y : float) : float :=
  exp_terms 80 (y * ln_series x) 1 1.

End JS.

(** ** The source: [src/useColorLuminance.ts] *)

Import JS.
Local Open Scope float_scope.

Inductive OpaqueColor :=
  | Str (color : string)
  | Arr (color : list float).

(** The two error classes, with the arguments of their constructors (the
    message is a fixed text around them). *)
Inductive Error :=
  | UnsupportedFormat (color : string)
  | NeedsAlphaBlending (color : string) (alpha : float).

Inductive result (A : Type) :=
  | Ok (a : A)
  | Throw (e : Error).
Arguments Ok {A} a.
Arguments Throw {A} e.

(** Computations read and write the module-level [CACHE] and may throw. *)
Definition M (A : Type) : Type :=
  gmap string float → result A * gmap string float.

Definition ret {A} (a : A) : M A := λ CACHE, (Ok a, CACHE).
Definition throw {A} (e : Error) : M A := λ CACHE, (Throw e, CACHE).
Definition lift {A} (r : result A) : M A := λ CACHE, (r, CACHE).
Definition bind {A B} (m : M A) (k : A → M B) : M B :=
  λ CACHE,
    match m CACHE with
    | (Ok a, CACHE') => k a CACHE'
    | (Throw e, CACHE') => (Throw e, CACHE')
    end.

Notation "'let*' x ':=' m 'in' k" := (bind m (λ x, k))
  (at level 10, x name, m at level 100, k at level 200).
Notation "'do' m 'then' k" := (bind m (λ _, k))
  (at level 10, m at level 100, k at level 200).

(** [CACHE[key]].  [CACHE] is an object literal: the map holds the entries
    of its own, the numbers the source has stored; a key without an entry
    reads the member of that name inherited from [Object.prototype] when
    there is one, and [undefined] otherwise. *)
Definition read (key : string) (CACHE : gmap string float) : Value :=
  match CACHE !! key with
  | Some v => Num v
  | None => if inherited key then Member key else Undefined
  end.

Definition cache_get (key : string) : M Value :=
  λ CACHE, (Ok (read key CACHE), CACHE).

(** The entries after [CACHE[key] = v].  The key [__proto__] is an accessor
    of the prototype: assigning a number to it changes nothing. *)
Definition write (key : string) (v : float) (CACHE : gmap string float)
    : gmap string float :=
  if String.eqb key "__proto__" then CACHE else <[key := v]> CACHE.

(** [CACHE[key] = v], an expression whose value is [v]. *)
Definition cache_set (key : string) (v : float) : M float :=
  λ CACHE, (Ok v, write key v CACHE).

Definition LUMINANCE_DARK_THRESHOLD : float := 0.35.
Definition AA_THRESHOLD_CONTRAST : float := 4.5.
Definition AAA_THRESHOLD_CONTRAST : float := 7.0.
Definition AA_LARGE_SIZE_THRESHOLD_CONTRAST : float := 3.0.
Definition AAA_LARGE_SIZE_THRESHOLD_CONTRAST : float := 4.5.

Definition hexToByte (hex : string) : float := parseInt16 hex.

(** The test of [color.some(...)] in [assertRgbColor]. *)
Definition out_of_range (d : float) : bool := (d <? 0) || (255 <? d).

Definition bracketed (color : list float) : string :=
  "[" +:+ join ", " color +:+ "]".

Definition assertRgbColor (color : list float) : result unit :=
  if (length color <? 3)%nat || (4 <? length color)%nat
     || existsb out_of_range color
  then Throw (UnsupportedFormat (bracketed color))
  else if (length color =? 4)%nat && negb (nth 3 color nan =? 1)
  then Throw (NeedsAlphaBlending (bracketed color) (nth 3 color nan))
  else Ok tt.

(** ** Notions the properties are stated with *)

(** A component in the closed interval from 0 to 255. *)
Definition in_byte_range (d : float) : bool := (0 <=? d) && (d <=? 255).

Fixpoint all_digits (s : string) : bool :=
  match s with
  | EmptyString => true
  | String c s' => is_digit c && all_digits s'
  end.

(** The text does not go on with a decimal digit. *)
Definition no_digit_ahead (s : string) : bool :=
  match s with
  | EmptyString => true
  | String c _ => negb (is_digit c)
  end.

(** An unsigned integer: one or more digits. *)
Definition digits_lit (g : string) : bool :=
  match g with
  | EmptyString => false
  | String _ _ => all_digits g
  end.

(** The alpha component the pattern admits: [1], [0], or an optional [0],
    a dot and any number of digits. *)
Definition alpha_lit (a : string) : bool :=
  match a with
  | EmptyString => false
  | String c r =>
      if Ascii.eqb c "." then all_digits r
      else if Ascii.eqb c "1" then String.eqb r ""
      else if Ascii.eqb c "0" then
        match r with
        | EmptyString => true
        | String c' r' => Ascii.eqb c' "." && all_digits r'
        end
      else false
  end.


Definition groups_lit (alpha : string → bool) (g : Groups) : bool :=
  digits_lit (group1 g) && digits_lit (group2 g) && digits_lit (group3 g)
  && match group4 g with Some a => alpha a | None => true end.

(** A word of the grammar, from its groups, followed by [rest]: [rgb], an
    optional [a], and the parenthesised, comma-separated components. *)
Definition rgba_text_then (a : bool) (g : Groups) (rest : string) : string :=
  "rgb" +:+ (if a then "a" else "") +:+ "(" +:+ group1 g +:+ "," +:+
  group2 g +:+ "," +:+ group3 g +:+
  match group4 g with
  | Some x => "," +:+ x +:+ ")" +:+ rest
  | None => ")" +:+ rest
  end.

Definition rgba_text (a : bool) (g : Groups) : string := rgba_text_then a g "".

(** The alpha component is present and is not [1]. *)
Definition translucent (g : Groups) : bool :=
  match group4 g with
  | Some a => negb (String.eqb a "1")
  | None => false
  end.


(** All the 8-bit code units. *)
Definition all_ascii : list ascii := List.map ascii_of_nat (seq 0 256).

(** The byte two digits of radix 16 denote. *)
Definition byte_of (h l : ascii) : Z :=
  16 * default 0%Z (hex_value h) + default 0%Z (hex_value l).

(** Two characters, and [#] followed by three, six and eight characters. *)
Definition pair (c d : ascii) : string := String c (String d "").

Definition hex3 (c1 c2 c3 : ascii) : string :=
  String "#" (String c1 (String c2 (String c3 ""))).

Definition hex6 (c1 c2 c3 c4 c5 c6 : ascii) : string :=
  String "#" (String c1 (String c2 (String c3
    (String c4 (String c5 (String c6 "")))))).

Definition hex8 (c1 c2 c3 c4 c5 c6 c7 c8 : ascii) : string :=
  String "#" (String c1 (String c2 (String c3 (String c4
    (String c5 (String c6 (String c7 (String c8 "")))))))).

Definition is_ok {A} (r : result A) : bool :=
  match r with Ok _ => true | Throw _ => false end.

(** Two outcomes are alike when both are the same value, or both are errors
    of the same class (with the same alpha); the literal an error carries is
    left out of the comparison. *)
Definition same_outcome (r1 r2 : result Value) : Prop :=
  match r1, r2 with
  | Ok v1, Ok v2 => v1 = v2
  | Throw (UnsupportedFormat _), Throw (UnsupportedFormat _) => True
  | Throw (NeedsAlphaBlending _ a1), Throw (NeedsAlphaBlending _ a2) => a1 = a2
  | _, _ => False
  end.

(** A minus sign and a digit of radix 16 other than [0]: a pair that
    [parseInt] reads as a negative number. *)
Definition reads_negative (c d : ascii) : bool :=
  Ascii.eqb c "-" && is_hex d && negb (Ascii.eqb d "0").

(** A character with which no number of radix 16 can start: not a digit,
    not white space, not a sign. *)
Definition unreadable (c : ascii) : bool :=
  negb (is_hex c || is_white c || Ascii.eqb c "+" || Ascii.eqb c "-").

(** The letter [f] in either case. *)
Definition is_f (c : ascii) : bool := Ascii.eqb c "f" || Ascii.eqb c "F".

(** ** The earlier version of the module ([src/unnamed/part_001])

    The version with the [perceived] flag: no cache, no linearization, the
    error class [NotPremultiplied], and a pattern whose alpha needs the
    [0] before the dot.  [hexToByte] already divides by 255. *)

Module Legacy.

Inductive Error :=
  | UnsupportedFormat (color : string)
  | NotPremultiplied (color : string) (alpha : float).

Inductive outcome (A : Type) :=
  | Value (a : A)
  | Thrown (e : Error).
Arguments Value {A} a.
Arguments Thrown {A} e.

Definition DEFAULT_THRESHOLD : float := 0.5.

(** The text of the regular expression literal [RGBA_PATTERN]. *)
Definition RGBA_PATTERN : string :=
  "rgba?\(([0-9]+),([0-9]+),([0-9]+)(?:,(1|0|0\.[0-9]*))?\)".

(** The fourth group (a 1, or a 0, or a 0, a dot and any number of digits)
    followed by the closing parenthesis. *)
Definition alpha_close (s : string) : option (string * string) :=
  match expect "1)" s with
  | Some r => Some ("1", r)
  | None =>
  match expect "0)" s with
  | Some r => Some ("0", r)
  | None =>
      s1 ← expect "0." s;
      let '(d, s2) := span_digits s1 in
      r ← expect ")" s2;
      Some ("0." +:+ d, r)
  end end.

Definition RGBA_at (s : string) : option (Groups * string) :=
  s ← expect "rgb" s;
  let s := default s (expect "a" s) in
  s ← expect "(" s;
  '(g1, s) ← digits1 s;
  s ← expect "," s;
  '(g2, s) ← digits1 s;
  s ← expect "," s;
  '(g3, s) ← digits1 s;
  match expect "," s ≫= alpha_close with
  | Some (a, r) => Some (mkGroups g1 g2 g3 (Some a), r)
  | None => r ← expect ")" s; Some (mkGroups g1 g2 g3 None, r)
  end.

Fixpoint RGBA_match (s : string) : option Groups :=
  match RGBA_at s with
  | Some (g, _) => Some g
  | None =>
      match s with
      | EmptyString => None
      | String _ s' => RGBA_match s'
      end
  end.

Definition hexToByte (hex : string) : float := parseInt16 hex / 255.

Definition componentsToLuminance (r g b : float) (perceived : bool) : float :=
  if perceived then 0.299 * r + 0.587 * g + 0.114 * b
  else 0.2126 * r + 0.7152 * g + 0.0722 * b.

Definition assertRgbColor (color : list float) : outcome unit :=
  if (length color <? 3)%nat || (4 <? length color)%nat
     || existsb out_of_range color
  then Thrown (UnsupportedFormat (bracketed color))
  else if (length color =? 4)%nat && negb (nth 3 color nan =? 1)
  then Thrown (NotPremultiplied (bracketed color) (nth 3 color nan))
  else Value tt.

(** [colorLuminance] on an array: its last two statements.  [perceived] is
    the truthiness of the optional argument. *)
Definition colorLuminance_array (color : list float) (perceived : bool)
    : outcome float :=
  match assertRgbColor color with
  | Thrown e => Thrown e
  | Value _ =>
      Value (componentsToLuminance
               (nth 0 color nan / 255) (nth 1 color nan / 255)
               (nth 2 color nan / 255) perceived)
  end.

(** The call on the six digits does not pass [perceived] on. *)
Definition colorLuminance (color : OpaqueColor) (perceived : bool)
    : outcome float :=
  match color with
  | Str color =>
      if String.prefix "#" color then
        let rgb := slice_from 1 color in
        if (String.length rgb =? 3)%nat then
          colorLuminance_array
            [ hexToByte (at_index 0 rgb +:+ at_index 0 rgb);
              hexToByte (at_index 1 rgb +:+ at_index 1 rgb);
              hexToByte (at_index 2 rgb +:+ at_index 2 rgb) ]
            perceived
        else
          let alpha := hexToByte (slice 6 8 rgb) in
          if (String.length rgb =? 8)%nat && negb (alpha =? 255)
          then Thrown (NotPremultiplied color alpha)
          else if (String.length rgb =? 6)%nat || (String.length rgb =? 8)%nat
          then
            colorLuminance_array
              [ hexToByte (slice 0 2 rgb);
                hexToByte (slice 2 4 rgb);
                hexToByte (slice 4 6 rgb) ]
              false
          else Thrown (UnsupportedFormat color)
      else
        match RGBA_match (remove_spaces color) with
        | Some matches =>
            match group4 matches with
            | Some a =>
                if negb (String.eqb a "") && negb (String.eqb a "1")
                then Thrown (NotPremultiplied color (Number a))
                else
                  colorLuminance_array
                    [ Number (group1 matches); Number (group2 matches);
                      Number (group3 matches) ]
                    perceived
            | None =>
                colorLuminance_array
                  [ Number (group1 matches); Number (group2 matches);
                    Number (group3 matches) ]
                  perceived
            end
        | None => Thrown (UnsupportedFormat color)
        end
  | Arr color => colorLuminance_array color perceived
  end.

End Legacy.

(** The [useMemo] of a first render: it runs the computation. *)
Definition useMemo_first_render (A : Type) (f : M A)
    (deps : list OpaqueColor) : M A := f.

Section Source.

(** [x ** y]. *)
Variable pow : float → float → float.

Definition componentsToLuminance (r g b : float) : float :=
  let rl := if 0.03928 <? r then pow ((r + 0.055) / 1.055) 2.4 else r / 12.92 in
  let gl := if 0.03928 <? g then pow ((g + 0.055) / 1.055) 2.4 else g / 12.92 in
  let bl := if 0.03928 <? b then pow ((b + 0.055) / 1.055) 2.4 else b / 12.92 in
  0.2126 * rl + 0.7152 * gl + 0.0722 * bl.

(** [colorLuminance] on an array: the last two statements of the function.
    The source reaches them by calling itself on the array it has built. *)
Definition colorLuminance_array (color : list float) : result float :=
  match assertRgbColor color with
  | Throw e => Throw e
  | Ok _ =>
      Ok (componentsToLuminance
            (nth 0 color nan / 255) (nth 1 color nan / 255) (nth 2 color nan / 255))
  end.

(** [colorLuminance] on a string, from the statement that follows the
    test of the cache. *)
Definition colorLuminance_uncached (color : string) : M float :=
  if String.prefix "#" color then
    let rgb := slice_from 1 color in
    if (String.length rgb =? 3)%nat then
      let* v := lift (colorLuminance_array
                        [ hexToByte (at_index 0 rgb +:+ at_index 0 rgb);
                          hexToByte (at_index 1 rgb +:+ at_index 1 rgb);
                          hexToByte (at_index 2 rgb +:+ at_index 2 rgb) ]) in
      cache_set color v
    else
      do (if (String.length rgb =? 8)%nat then
            let alpha := hexToByte (slice 6 8 rgb) in
            if negb (alpha =? 255)
            then throw (NeedsAlphaBlending color alpha)
            else ret tt
          else ret tt)
      then
      if (String.length rgb =? 6)%nat || (String.length rgb =? 8)%nat then
        let* v := lift (colorLuminance_array
                          [ hexToByte (slice 0 2 rgb);
                            hexToByte (slice 2 4 rgb);
                            hexToByte (slice 4 6 rgb) ]) in
        cache_set color v
      else throw (UnsupportedFormat color)
  else
    match RGBA_match (remove_spaces color) with
    | Some matches =>
        do (match group4 matches with
            | Some a =>
                if negb (String.eqb a "") && negb (String.eqb a "1")
                then throw (NeedsAlphaBlending color (Number a))
                else ret tt
            | None => ret tt
            end)
        then
        let* v := lift (colorLuminance_array
                          [ Number (group1 matches);
                            Number (group2 matches);
                            Number (group3 matches) ]) in
        cache_set color v
    | None => throw (UnsupportedFormat color)
    end.

(** [colorLuminance].  What it returns is a number, except when it returns
    what it has read in [CACHE]. *)
Definition colorLuminance (color : OpaqueColor) (cache : bool) : M Value :=
  match color with
  | Str color =>
      let* hit := cache_get color in
      if cache && truthy hit then ret hit
      else let* v := colorLuminance_uncached color in ret (Num v)
  | Arr color => let* v := lift (colorLuminance_array color) in ret (Num v)
  end.

Definition contrast (color background : OpaqueColor) : M float :=
  let* la := colorLuminance color true in
  let* lb := colorLuminance background true in
  let sorted := sort [la; lb] in
  let l2 := nth 0 sorted Undefined in
  let l1 := nth 1 sorted Undefined in
  ret (divide (plus l1 0.05) (plus l2 0.05)).

(** The specification's wording of the luminance: each channel divided by
    255, made linear, and the weighted sum. *)
Definition linearize (c : float) : float :=
  if 0.03928 <? c then pow ((c + 0.055) / 1.055) 2.4 else c / 12.92.

Definition relative_luminance (r g b : float) : float :=
  0.2126 * linearize (r / 255) + 0.7152 * linearize (g / 255)
  + 0.0722 * linearize (b / 255).

(** What [colorLuminance] computes for a string when it does not answer
    from the cache. *)
Definition computed (color : string) : result float :=
  fst (colorLuminance_uncached color ∅).

(** A number, or an error, as the outcome of a call. *)
Definition number (r : result float) : result Value :=
  match r with
  | Ok v => Ok (Num v)
  | Throw e => Throw e
  end.

(** [CACHE[color] = r] when [r] is a value; nothing when [r] throws. *)
Definition store (color : string) (r : result float)
    (CACHE : gmap string float) : result Value * gmap string float :=
  match r with
  | Ok v => (Ok (Num v), write color v CACHE)
  | Throw e => (Throw e, CACHE)
  end.

(** Every entry of the cache is the luminance computed for its key. *)
Definition cache_wf (CACHE : gmap string float) : Prop :=
  ∀ color v, CACHE !! color = Some v → computed color = Ok v.

(** Every cache the program can be in: the empty one it starts with, and
    the one any call leaves behind. *)
Inductive reachable : gmap string float → Prop :=
  | reachable_start : reachable ∅
  | reachable_colorLuminance color cache CACHE :
      reachable CACHE → reachable (snd (colorLuminance color cache CACHE))
  | reachable_contrast color background CACHE :
      reachable CACHE → reachable (snd (contrast color background CACHE)).

(** *** The hooks

    [useMemo] is React's: it is a parameter.  It is given the computation
    and the list of dependencies, and returns the value of the computation,
    from this render or from an earlier one with the same dependencies. *)
Variable useMemo : ∀ A : Type, M A → list OpaqueColor → M A.

Definition useColorLuminance (color : OpaqueColor) : M Value :=
  useMemo _ (colorLuminance color true) [color].

(** An optional argument that is left out takes its default. *)
Definition useIsColorDark (color : OpaqueColor) (threshold : option float)
    : M bool :=
  let threshold := default LUMINANCE_DARK_THRESHOLD threshold in
  let* luminance := useColorLuminance color in
  ret (less_than luminance threshold).

Definition useContrast (color background : OpaqueColor) : M float :=
  useMemo _ (contrast color background) [color; background].

Definition useHasContrastOnLight (color : OpaqueColor)
    (background : option OpaqueColor) (threshold : option float) : M bool :=
  let background := default (Str "#ffffff") background in
  let threshold := default AA_THRESHOLD_CONTRAST threshold in
  let* ratio := useContrast color background in
  ret (threshold <? ratio).

Definition useHasContrastOnDark (color : OpaqueColor)
    (background : option OpaqueColor) (threshold : option float) : M bool :=
  let background := default (Str "#000000") background in
  let threshold := default AA_THRESHOLD_CONTRAST threshold in
  let* ratio := useContrast color background in
  ret (threshold <? ratio).

(** A render in which [useMemo] runs the computation it is given: the
    first one, or one after a change of the dependencies. *)
Definition memo_computes : Prop :=
  ∀ (A : Type) (f : M A) (deps : list OpaqueColor), useMemo A f deps = f.

(** *** What a call returns and leaves, in a well-formed cache *)

(** The luminance of a colour, or the error it raises. *)
Definition luminance_value (color : OpaqueColor) : result float :=
  match color with
  | Str s => computed s
  | Arr a => colorLuminance_array a
  end.

(** The cache after a call on the colour. *)
Definition cache_after (color : OpaqueColor) (CACHE : gmap string float)
    : gmap string float :=
  match color, luminance_value color with
  | Str s, Ok v => <[s := v]> CACHE
  | _, _ => CACHE
  end.

(** A colour that is not the name of an inherited member. *)
Definition plain (color : OpaqueColor) : bool :=
  match color with
  | Str s => negb (inherited s)
  | Arr _ => true
  end.

(** What a call returns: the member when the cache is read and the string
    names one, and the luminance otherwise. *)
Definition returned (color : OpaqueColor) (cache : bool) : result Value :=
  match color with
  | Str s => if cache && inherited s then Ok (Member s) else number (computed s)
  | Arr a => number (colorLuminance_array a)
  end.

(** What [contrast] makes of what the two calls return. *)
Definition ratio (la lb : Value) : float :=
  let sorted := sort [la; lb] in
  divide (plus (nth 1 sorted Undefined) 0.05)
         (plus (nth 0 sorted Undefined) 0.05).

(** What [contrast] makes of two luminances. *)
Definition ratio_of (la lb : float) : float := ratio (Num la) (Num lb).

(** ** Order on numbers *)

Lemma SFcompare_antisym x y c :
  SFcompare x y = Some c → SFcompare y x = Some (CompOpp c).
Proof.
  destruct x as [sx|sx| |sx mx ex], y as [sy|sy| |sy my ey]; simpl;
    try discriminate; intros [= <-];
    try (destruct sx; reflexivity); try (destruct sy; reflexivity);
    try (destruct sx, sy; reflexivity).
  destruct sx, sy; try reflexivity;
    rewrite (Z.compare_antisym ex ey); destruct (ex ?= ey)%Z; simpl;
    try reflexivity.
  all: change PosDef.Pos.compare_cont with Pos.compare_cont.
  all: rewrite (ZC4 my mx); destruct (Pos.compare_cont Eq mx my); reflexivity.
Qed.

Lemma leb_not_gtb (x y : float) : (x <=? y) = true → (y <? x) = false.
Proof.
  rewrite leb_spec, ltb_spec. unfold SFleb, SFltb.
  destruct (SFcompare (Prim2SF x) (Prim2SF y)) as [c|] eqn:E; [|discriminate].
  rewrite (SFcompare_antisym _ _ _ E). destruct c; simpl; congruence.
Qed.

Lemma in_byte_range_ok (d : float) :
  in_byte_range d = true → out_of_range d = false.
Proof.
  unfold in_byte_range, out_of_range. intros [H0 H255]%andb_true_iff.
  rewrite (leb_not_gtb _ _ H0), (leb_not_gtb _ _ H255). reflexivity.
Qed.

(** ** The pattern *)

Lemma expect_append (lit r : string) : expect lit (lit +:+ r) = Some r.
Proof.
  induction lit as [|c lit IH]; simpl; [reflexivity|].
  rewrite Ascii.eqb_refl. exact IH.
Qed.

Lemma expect_sound (lit s r : string) : expect lit s = Some r → s = lit +:+ r.
Proof.
  revert s. induction lit as [|c lit IH]; intros s; simpl.
  - intros [= ->]. reflexivity.
  - destruct s as [|b s]; [discriminate|].
    destruct (Ascii.eqb_spec c b) as [->|]; [|discriminate].
    intros H. rewrite (IH _ H). reflexivity.
Qed.

Lemma span_digits_append (d r : string) :
  all_digits d = true → no_digit_ahead r = true →
  span_digits (d +:+ r) = (d, r).
Proof.
  intros Hd Hr. induction d as [|c d IH]; simpl in *.
  - destruct r as [|c r]; [reflexivity|]. simpl in *.
    apply negb_true_iff in Hr. rewrite Hr. reflexivity.
  - apply andb_true_iff in Hd as [Hc Hd]. rewrite Hc, (IH Hd). reflexivity.
Qed.

Lemma span_digits_sound (s d r : string) :
  span_digits s = (d, r) →
  s = d +:+ r ∧ all_digits d = true ∧ no_digit_ahead r = true.
Proof.
  revert d r. induction s as [|c s IH]; simpl; intros d r.
  - intros [= <- <-]. auto.
  - destruct (is_digit c) eqn:Hc.
    + destruct (span_digits s) as [d' r'] eqn:E. intros [= <- <-].
      destruct (IH _ _ eq_refl) as (-> & Hd & Hr). simpl. rewrite Hc. auto.
    + intros [= <- <-]. simpl. rewrite Hc. auto.
Qed.

Lemma digits1_append (d r : string) :
  digits_lit d = true → no_digit_ahead r = true →
  digits1 (d +:+ r) = Some (d, r).
Proof.
  intros Hd Hr. unfold digits1. destruct d as [|c d]; [discriminate|].
  rewrite span_digits_append by assumption. reflexivity.
Qed.

Lemma digits1_sound (s d r : string) :
  digits1 s = Some (d, r) →
  s = d +:+ r ∧ digits_lit d = true ∧ no_digit_ahead r = true.
Proof.
  unfold digits1. destruct (span_digits s) as [d' r'] eqn:E.
  destruct (span_digits_sound _ _ _ E) as (-> & Hd & Hr).
  destruct d' as [|c d']; [discriminate|]. intros [= <- <-]. auto.
Qed.

Lemma append_cons (c : ascii) (s r : string) :
  String c s +:+ r = String c (s +:+ r).
Proof. reflexivity. Qed.

Lemma append_empty (r : string) : "" +:+ r = r.
Proof. reflexivity. Qed.

(** Pushes the known characters of a concatenation to the front. *)
Ltac front := repeat (rewrite append_cons || rewrite append_empty).

Lemma alpha_close_complete (a rest : string) :
  alpha_lit a = true → alpha_close (a +:+ String ")" rest) = Some (a, rest).
Proof.
  destruct a as [|c r]; [discriminate|]. unfold alpha_lit.
  destruct (Ascii.eqb_spec c ".") as [->|_].
  { intros Hr. unfold alpha_close. front. cbn.
    rewrite span_digits_append by (assumption || reflexivity).
    cbn. reflexivity. }
  destruct (Ascii.eqb_spec c "1") as [->|_].
  { intros ->%String.eqb_eq. reflexivity. }
  destruct (Ascii.eqb_spec c "0") as [->|_]; [|discriminate].
  destruct r as [|c' r']; [reflexivity|].
  intros [->%Ascii.eqb_eq Hr]%andb_true_iff.
  unfold alpha_close. front. cbn.
  rewrite span_digits_append by (assumption || reflexivity).
  cbn. reflexivity.
Qed.

Lemma alpha_close_sound (s a rest : string) :
  alpha_close s = Some (a, rest) →
  s = a +:+ ")" +:+ rest ∧ alpha_lit a = true.
Proof.
  unfold alpha_close.
  destruct (expect "1)" s) as [r1|] eqn:E1.
  { intros [= <- <-]. apply expect_sound in E1. auto. }
  destruct (expect "0)" s) as [r0|] eqn:E0.
  { intros [= <- <-]. apply expect_sound in E0. auto. }
  destruct (expect "0" s) as [r|] eqn:Ez.
  - apply expect_sound in Ez. subst s.
    destruct (expect "." r) as [s1|] eqn:Ed; [|discriminate].
    apply expect_sound in Ed. subst r. cbn [mbind option_bind].
    destruct (span_digits s1) as [d s2] eqn:Es.
    destruct (span_digits_sound _ _ _ Es) as (-> & Hd & _).
    destruct (expect ")" s2) as [r|] eqn:Ec; [|discriminate].
    apply expect_sound in Ec. subst s2. cbn [mbind option_bind]. intros [= <- <-].
    split; [reflexivity|]. exact Hd.
  - destruct (expect "." s) as [s1|] eqn:Ed; [|discriminate].
    apply expect_sound in Ed. subst s. cbn [mbind option_bind].
    destruct (span_digits s1) as [d s2] eqn:Es.
    destruct (span_digits_sound _ _ _ Es) as (-> & Hd & _).
    destruct (expect ")" s2) as [r|] eqn:Ec; [|discriminate].
    apply expect_sound in Ec. subst s2. cbn [mbind option_bind]. intros [= <- <-].
    split; [reflexivity|]. exact Hd.
Qed.

Lemma RGBA_at_complete (a : bool) (g : Groups) (rest : string) :
  groups_lit alpha_lit g = true →
  RGBA_at (rgba_text_then a g rest) = Some (g, rest).
Proof.
  destruct g as [g1 g2 g3 g4]. unfold groups_lit, rgba_text_then. cbn.
  intros [[[H1 H2]%andb_true_iff H3]%andb_true_iff H4]%andb_true_iff.
  unfold RGBA_at.
  destruct a; front; cbn;
    rewrite (digits1_append g1) by (assumption || reflexivity); cbn;
    rewrite (digits1_append g2) by (assumption || reflexivity); cbn;
    (destruct g4 as [x|]; front;
     rewrite (digits1_append g3) by (assumption || reflexivity); cbn;
     [rewrite alpha_close_complete by assumption|]; reflexivity).
Qed.

Lemma RGBA_at_sound (s : string) (g : Groups) (rest : string) :
  RGBA_at s = Some (g, rest) →
  ∃ a, s = rgba_text_then a g rest ∧ groups_lit alpha_lit g = true.
Proof.
  unfold RGBA_at.
  destruct (expect "rgb" s) as [s0|] eqn:E0; [|discriminate].
  apply expect_sound in E0. subst s. cbn [mbind option_bind].
  remember (default s0 (expect "a" s0)) as s1 eqn:Hs1.
  assert (Ha : ∃ a : bool, s0 = (if a then "a" else "") +:+ s1).
  { subst s1. destruct (expect "a" s0) as [r|] eqn:E.
    - apply expect_sound in E. exists true. exact E.
    - exists false. reflexivity. }
  clear Hs1. destruct Ha as [a ->].
  destruct (expect "(" s1) as [s2|] eqn:E2; [|discriminate].
  apply expect_sound in E2. subst s1. cbn [mbind option_bind].
  destruct (digits1 s2) as [[g1 r1]|] eqn:D1; [|discriminate].
  destruct (digits1_sound _ _ _ D1) as (-> & H1 & _). cbn [mbind option_bind].
  destruct (expect "," r1) as [s3|] eqn:E3; [|discriminate].
  apply expect_sound in E3. subst r1. cbn [mbind option_bind].
  destruct (digits1 s3) as [[g2 r2]|] eqn:D2; [|discriminate].
  destruct (digits1_sound _ _ _ D2) as (-> & H2 & _). cbn [mbind option_bind].
  destruct (expect "," r2) as [s4|] eqn:E4; [|discriminate].
  apply expect_sound in E4. subst r2. cbn [mbind option_bind].
  destruct (digits1 s4) as [[g3 r3]|] eqn:D3; [|discriminate].
  destruct (digits1_sound _ _ _ D3) as (-> & H3 & _). cbn [mbind option_bind].
  destruct (expect "," r3 ≫= alpha_close) as [[x r]|] eqn:E5.
  - intros [= <- <-]. exists a.
    destruct (expect "," r3) as [s5|] eqn:E6; [|discriminate].
    apply expect_sound in E6. subst r3. cbn [mbind option_bind] in E5.
    destruct (alpha_close_sound _ _ _ E5) as (-> & Hx).
    unfold rgba_text_then, groups_lit. simpl.
    rewrite H1, H2, H3, Hx. split; reflexivity.
  - destruct (expect ")" r3) as [r|] eqn:E6; [|discriminate].
    apply expect_sound in E6. subst r3. cbn [mbind option_bind]. intros [= <- <-]. exists a.
    unfold rgba_text_then, groups_lit. simpl.
    rewrite H1, H2, H3. split; reflexivity.
Qed.

Lemma RGBA_match_at (s : string) (g : Groups) (rest : string) :
  RGBA_at s = Some (g, rest) → RGBA_match s = Some g.
Proof. intros H. destruct s; cbn [RGBA_match]; rewrite H; reflexivity. Qed.


(** ** The cache *)

Arguments colorLuminance_array : simpl never.

(** The statements after the test of the cache compute the luminance and
    store it under the string when it is a value. *)
Lemma colorLuminance_uncached_store (color : string)
    (CACHE : gmap string float) :
  colorLuminance_uncached color CACHE =
  match computed color with
  | Ok v => (Ok v, write color v CACHE)
  | Throw e => (Throw e, CACHE)
  end.
Proof.
  unfold computed, colorLuminance_uncached, bind, cache_set, lift, ret, throw.
  destruct (String.prefix "#" color).
  - destruct (String.length (slice_from 1 color) =? 3)%nat.
    { destruct (colorLuminance_array _); reflexivity. }
    destruct (String.length (slice_from 1 color) =? 8)%nat;
      cbn [orb]; rewrite ?orb_true_r.
    + destruct (negb _); [reflexivity|].
      destruct (colorLuminance_array _); reflexivity.
    + destruct (String.length (slice_from 1 color) =? 6)%nat; cbn [orb];
        [destruct (colorLuminance_array _)|]; reflexivity.
  - destruct (RGBA_match (remove_spaces color)) as [matches|]; [|reflexivity].
    destruct (group4 matches) as [a|].
    + destruct (negb (String.eqb a "") && negb (String.eqb a "1"));
        [reflexivity|].
      destruct (colorLuminance_array _); reflexivity.
    + destruct (colorLuminance_array _); reflexivity.
Qed.

(** The shape of [colorLuminance] on a string: what is read in the cache
    when it is truthy, and otherwise the computed value, stored under the
    string when it is a value. *)
Lemma colorLuminance_string (color : string) (cache : bool)
    (CACHE : gmap string float) :
  colorLuminance (Str color) cache CACHE =
  if cache && truthy (read color CACHE)
  then (Ok (read color CACHE), CACHE)
  else store color (computed color) CACHE.
Proof.
  unfold colorLuminance, bind, cache_get, ret, store. cbn [andb fst].
  destruct (cache && truthy (read color CACHE)); [reflexivity|].
  rewrite colorLuminance_uncached_store.
  destruct (computed color); reflexivity.
Qed.

(** The names of the inherited members are no colours. *)
Lemma inherited_computed (key : string) :
  inherited key = true → computed key = Throw (UnsupportedFormat key).
Proof.
  unfold inherited. intros (k & Hin & Hk)%existsb_exists.
  apply String.eqb_eq in Hk. subst k.
  repeat (destruct Hin as [<-|Hin]; [vm_compute; reflexivity|]).
  destruct Hin.
Qed.

Lemma computed_not_inherited (color : string) :
  computed color ≠ Throw (UnsupportedFormat color) → inherited color = false.
Proof.
  intros H. destruct (inherited color) eqn:E; [|reflexivity].
  destruct H. apply inherited_computed. exact E.
Qed.

Lemma hash_not_inherited (color : string) :
  String.prefix "#" color = true → inherited color = false.
Proof.
  intros H. destruct (inherited color) eqn:E; [|reflexivity].
  unfold inherited in E. apply existsb_exists in E as (k & Hin & Hk).
  apply String.eqb_eq in Hk. subst k.
  repeat (destruct Hin as [<-|Hin]; [discriminate H|]).
  destruct Hin.
Qed.

(** Storing under a string that has a luminance adds or replaces the entry
    of that string. *)
Lemma computed_write (color : string) (v : float) (CACHE : gmap string float) :
  computed color = Ok v → write color v CACHE = <[color := v]> CACHE.
Proof.
  intros H. unfold write.
  destruct (String.eqb color "__proto__") eqn:E; [|reflexivity].
  rewrite (inherited_computed color) in H; [discriminate|].
  apply String.eqb_eq in E. subst color. reflexivity.
Qed.

(** What is read in the cache is truthy for an entry that is neither zero
    nor NaN, and for an inherited member without an entry over it. *)
Lemma truthy_read (color : string) (CACHE : gmap string float) :
  truthy (read color CACHE) = true →
  (∃ v, CACHE !! color = Some v ∧ ToBoolean v = true
        ∧ read color CACHE = Num v)
  ∨ (CACHE !! color = None ∧ inherited color = true
     ∧ read color CACHE = Member color).
Proof.
  unfold read. destruct (CACHE !! color) as [v|]; [left; eauto|].
  destruct (inherited color); [right; auto|discriminate].
Qed.

Lemma cache_wf_empty : cache_wf ∅.
Proof. intros color v H. rewrite lookup_empty in H. discriminate. Qed.

Lemma cache_wf_insert (CACHE : gmap string float) (color : string) (v : float) :
  cache_wf CACHE → computed color = Ok v → cache_wf (<[color := v]> CACHE).
Proof.
  intros Hwf Hc k w. destruct (decide (color = k)) as [<-|Hne].
  - rewrite lookup_insert_eq. intros [= <-]. exact Hc.
  - rewrite lookup_insert_ne by assumption. apply Hwf.
Qed.

Lemma insert_computed_subseteq (CACHE : gmap string float) (color : string)
    (v : float) :
  cache_wf CACHE → computed color = Ok v → CACHE ⊆ <[color := v]> CACHE.
Proof.
  intros Hwf Hc. destruct (CACHE !! color) as [w|] eqn:E.
  - pose proof (Hwf _ _ E) as Hw. rewrite Hc in Hw. injection Hw as ->.
    rewrite insert_id by assumption. reflexivity.
  - apply insert_subseteq. exact E.
Qed.

(** In a well-formed cache no inherited name has an entry over it. *)
Lemma cache_wf_inherited (CACHE : gmap string float) (color : string) :
  cache_wf CACHE → inherited color = true → CACHE !! color = None.
Proof.
  intros Hwf Hi. destruct (CACHE !! color) as [v|] eqn:E; [|reflexivity].
  apply Hwf in E. rewrite (inherited_computed _ Hi) in E. discriminate.
Qed.

(** With a well-formed cache a call on a string returns the member of that
    name when it reads the cache and there is one, and otherwise what is
    computed for the string, whether or not it comes from the cache. *)
Lemma colorLuminance_outcome (color : string) (cache : bool)
    (CACHE : gmap string float) :
  cache_wf CACHE →
  fst (colorLuminance (Str color) cache CACHE) = returned (Str color) cache.
Proof.
  intros Hwf. rewrite colorLuminance_string. unfold returned.
  destruct (cache && truthy (read color CACHE)) eqn:E.
  - apply andb_true_iff in E as [-> [(v & Hv & _ & ->)|(_ & Hi & ->)]%truthy_read].
    + pose proof (Hwf _ _ Hv) as Hc.
      rewrite computed_not_inherited by congruence.
      rewrite Hc. reflexivity.
    + rewrite Hi. reflexivity.
  - assert (Hn : cache && inherited color = false).
    { destruct cache; [|reflexivity]. cbn [andb] in *.
      destruct (inherited color) eqn:Hi; [|reflexivity].
      unfold read in E. rewrite (cache_wf_inherited _ _ Hwf Hi), Hi in E.
      discriminate. }
    rewrite Hn. unfold store. destruct (computed color); reflexivity.
Qed.

(** So it returns what is computed, unless the string names an inherited
    member and the cache is read. *)
Lemma colorLuminance_value (color : string) (cache : bool)
    (CACHE : gmap string float) :
  cache_wf CACHE → inherited color = false →
  fst (colorLuminance (Str color) cache CACHE) = number (computed color).
Proof.
  intros Hwf Hi. rewrite colorLuminance_outcome by assumption.
  unfold returned. rewrite Hi, andb_false_r. reflexivity.
Qed.

(** A string whose computation throws has no entry, so the call throws and
    leaves the cache as it is, unless it returns an inherited member. *)
Lemma colorLuminance_throws (color : string) (cache : bool)
    (CACHE : gmap string float) (e : Error) :
  cache_wf CACHE → computed color = Throw e → cache && inherited color = false →
  colorLuminance (Str color) cache CACHE = (Throw e, CACHE).
Proof.
  intros Hwf Hc Hi. rewrite colorLuminance_string.
  destruct (cache && truthy (read color CACHE)) eqn:E.
  - apply andb_true_iff in E as [-> [(v & Hv & _)|(_ & Hi' & _)]%truthy_read].
    + apply Hwf in Hv. congruence.
    + rewrite Hi' in Hi. discriminate.
  - rewrite Hc. reflexivity.
Qed.

Lemma colorLuminance_throws_hash (color : string) (cache : bool)
    (CACHE : gmap string float) (e : Error) :
  cache_wf CACHE → computed color = Throw e → String.prefix "#" color = true →
  colorLuminance (Str color) cache CACHE = (Throw e, CACHE).
Proof.
  intros Hwf Hc Hhash. apply colorLuminance_throws; [assumption..|].
  rewrite (hash_not_inherited _ Hhash). apply andb_false_r.
Qed.

Lemma colorLuminance_throws_other (color : string) (cache : bool)
    (CACHE : gmap string float) (e : Error) :
  cache_wf CACHE → computed color = Throw e → e ≠ UnsupportedFormat color →
  colorLuminance (Str color) cache CACHE = (Throw e, CACHE).
Proof.
  intros Hwf Hc He. apply colorLuminance_throws; [assumption..|].
  rewrite computed_not_inherited by congruence. apply andb_false_r.
Qed.

Lemma colorLuminance_Arr (a : list float) (cache : bool)
    (CACHE : gmap string float) :
  colorLuminance (Arr a) cache CACHE = (number (colorLuminance_array a), CACHE).
Proof.
  unfold colorLuminance, bind, lift, ret.
  destruct (colorLuminance_array a); reflexivity.
Qed.

(** With the cache read, the name of an inherited member returns that
    member. *)
Lemma colorLuminance_member (key : string) (CACHE : gmap string float) :
  cache_wf CACHE → inherited key = true →
  colorLuminance (Str key) true CACHE = (Ok (Member key), CACHE).
Proof.
  intros Hwf Hi. rewrite colorLuminance_string. unfold read.
  rewrite (cache_wf_inherited _ _ Hwf Hi), Hi. reflexivity.
Qed.

(** No inherited name starts, spaces removed, as the pattern does. *)
Lemma inherited_no_word (key : string) :
  inherited key = true → String.prefix "r" (remove_spaces key) = false.
Proof.
  unfold inherited. intros (k & Hin & Hk)%existsb_exists.
  apply String.eqb_eq in Hk. subst k.
  repeat (destruct Hin as [<-|Hin]; [vm_compute; reflexivity|]).
  destruct Hin.
Qed.

Lemma word_not_inherited (color : string) (a : bool) (g : Groups)
    (rest : string) :
  remove_spaces color = rgba_text_then a g rest → inherited color = false.
Proof.
  intros H. destruct (inherited color) eqn:E; [|reflexivity].
  apply inherited_no_word in E. rewrite H in E. discriminate E.
Qed.

Lemma colorLuminance_cache (color : OpaqueColor) (cache : bool)
    (CACHE CACHE' : gmap string float) (r : result Value) :
  cache_wf CACHE →
  colorLuminance color cache CACHE = (r, CACHE') →
  cache_wf CACHE' ∧ CACHE ⊆ CACHE' ∧
  match color, r with
  | Str s, Ok (Num v) => CACHE' = <[s := v]> CACHE
  | _, _ => CACHE' = CACHE
  end.
Proof.
  intros Hwf. destruct color as [s|a].
  - rewrite colorLuminance_string.
    destruct (cache && truthy (read s CACHE)) eqn:E.
    + apply andb_true_iff in E as [_ [(v & Hs & _ & ->)|(_ & _ & ->)]%truthy_read];
        intros [= <- <-]; [|auto].
      rewrite insert_id by assumption. auto.
    + unfold store. destruct (computed s) as [v|e] eqn:Hc;
        intros [= <- <-]; [|auto].
      rewrite (computed_write _ _ _ Hc).
      split; [apply cache_wf_insert; assumption|].
      split; [apply insert_computed_subseteq; assumption|reflexivity].
  - unfold colorLuminance, bind, lift, ret.
    destruct (colorLuminance_array a); intros [= <- <-]; auto.
Qed.

Lemma contrast_cache (color background : OpaqueColor)
    (CACHE CACHE' : gmap string float) (r : result float) :
  cache_wf CACHE →
  contrast color background CACHE = (r, CACHE') →
  cache_wf CACHE' ∧ CACHE ⊆ CACHE'.
Proof.
  intros Hwf. unfold contrast, bind, ret.
  destruct (colorLuminance color true CACHE) as [[la|e] C1] eqn:E1;
    destruct (colorLuminance_cache _ _ _ _ _ Hwf E1) as (Hwf1 & Hsub1 & _).
  - destruct (colorLuminance background true C1) as [[lb|e] C2] eqn:E2;
      destruct (colorLuminance_cache _ _ _ _ _ Hwf1 E2) as (Hwf2 & Hsub2 & _);
      intros [= <- <-]; (split; [assumption|]);
      etransitivity; eassumption.
  - intros [= <- <-]. auto.
Qed.

(** ** What is computed for each notation *)

Arguments hexToByte : simpl never.
Arguments Number : simpl never.
Arguments bracketed : simpl never.

Lemma computed_hex3 (c1 c2 c3 : ascii) :
  computed (hex3 c1 c2 c3) =
  colorLuminance_array
    [hexToByte (pair c1 c1); hexToByte (pair c2 c2); hexToByte (pair c3 c3)].
Proof.
  unfold computed, colorLuminance_uncached, bind, cache_set, lift. cbn.
  destruct (colorLuminance_array _); reflexivity.
Qed.

Lemma computed_hex6 (c1 c2 c3 c4 c5 c6 : ascii) :
  computed (hex6 c1 c2 c3 c4 c5 c6) =
  colorLuminance_array
    [hexToByte (pair c1 c2); hexToByte (pair c3 c4); hexToByte (pair c5 c6)].
Proof.
  unfold computed, colorLuminance_uncached, bind, cache_set, lift. cbn.
  destruct (colorLuminance_array _); reflexivity.
Qed.

Lemma computed_hex8 (c1 c2 c3 c4 c5 c6 c7 c8 : ascii) :
  computed (hex8 c1 c2 c3 c4 c5 c6 c7 c8) =
  if hexToByte (pair c7 c8) =? 255
  then colorLuminance_array
         [hexToByte (pair c1 c2); hexToByte (pair c3 c4); hexToByte (pair c5 c6)]
  else Throw (NeedsAlphaBlending (hex8 c1 c2 c3 c4 c5 c6 c7 c8)
                (hexToByte (pair c7 c8))).
Proof.
  unfold computed, colorLuminance_uncached, bind, cache_set, lift. cbn.
  change (String c7 (String c8 "")) with (pair c7 c8).
  destruct (hexToByte (pair c7 c8) =? 255); cbn; [|reflexivity].
  destruct (colorLuminance_array _); reflexivity.
Qed.

Lemma alpha_lit_nonempty (a : string) : alpha_lit a = true → String.eqb a "" = false.
Proof. destruct a; [discriminate|reflexivity]. Qed.

(** A string without the character [#] in front whose text, spaces removed,
    is a word of the grammar. *)
Lemma computed_functional (color : string) (a : bool) (g : Groups) (rest : string) :
  String.prefix "#" color = false →
  remove_spaces color = rgba_text_then a g rest →
  groups_lit alpha_lit g = true →
  computed color =
  if translucent g
  then Throw (NeedsAlphaBlending color (Number (default "" (group4 g))))
  else colorLuminance_array
         [Number (group1 g); Number (group2 g); Number (group3 g)].
Proof.
  intros Hhash Htext Hg.
  pose proof (RGBA_match_at _ _ _ (RGBA_at_complete a g rest Hg)) as Hm.
  rewrite <- Htext in Hm.
  unfold computed, colorLuminance_uncached, bind, cache_set, lift, ret, throw.
  cbn [andb fst]. rewrite Hhash, Hm. unfold translucent.
  destruct (group4 g) as [x|] eqn:Ex.
  - assert (Hx : alpha_lit x = true).
    { unfold groups_lit in Hg. rewrite Ex in Hg.
      apply andb_true_iff in Hg as [_ Hg]. exact Hg. }
    rewrite (alpha_lit_nonempty _ Hx). cbn [negb andb default].
    destruct (negb (String.eqb x "1")); [reflexivity|].
    destruct (colorLuminance_array _); reflexivity.
  - destruct (colorLuminance_array _); reflexivity.
Qed.


Lemma remove_spaces_append (s r : string) :
  remove_spaces (s +:+ r) = remove_spaces s +:+ remove_spaces r.
Proof.
  induction s as [|c s IH]; [reflexivity|].
  rewrite append_cons. simpl. destruct (Ascii.eqb c " "); [exact IH|].
  rewrite append_cons, IH. reflexivity.
Qed.

Lemma remove_spaces_digits (d : string) :
  all_digits d = true → remove_spaces d = d.
Proof.
  induction d as [|c d IH]; [reflexivity|]. simpl.
  intros [Hc Hd]%andb_true_iff.
  destruct (Ascii.eqb_spec c " ") as [->|_]; [discriminate|].
  rewrite (IH Hd). reflexivity.
Qed.

Lemma digits_lit_all (d : string) : digits_lit d = true → all_digits d = true.
Proof. destruct d; [discriminate|]. intros H. exact H. Qed.

(** ** Bytes, by enumeration *)

Lemma all_ascii_complete (c : ascii) : In c all_ascii.
Proof.
  unfold all_ascii. rewrite <- (ascii_nat_embedding c).
  apply in_map, in_seq. pose proof (nat_ascii_bounded c). lia.
Qed.

Lemma ascii_forallb (P : ascii → bool) :
  forallb P all_ascii = true → ∀ c, P c = true.
Proof.
  intros H c. rewrite forallb_forall in H. apply H, all_ascii_complete.
Qed.

Lemma byte_forallb (P : Z → bool) :
  forallb P (List.map Z.of_nat (seq 0 256)) = true →
  ∀ z, (0 <= z < 256)%Z → P z = true.
Proof.
  intros H z Hz. rewrite forallb_forall in H. apply H.
  rewrite <- (Z2Nat.id z) by lia. apply in_map, in_seq. lia.
Qed.

Lemma hexToByte_pair (c d : ascii) :
  is_hex c = true → is_hex d = true →
  hexToByte (pair c d) = Z2number (byte_of c d).
Proof.
  intros Hc Hd.
  pose proof (ascii_forallb
    (λ c, forallb
       (λ d, implb (is_hex c && is_hex d)
               (Leibniz.eqb (hexToByte (pair c d)) (Z2number (byte_of c d))))
       all_ascii)) as H.
  specialize (H ltac:(vm_compute; reflexivity) c).
  rewrite forallb_forall in H. specialize (H d (all_ascii_complete d)).
  rewrite Hc, Hd in H. apply Leibniz.eqb_spec. exact H.
Qed.

Lemma byte_of_range (c d : ascii) : (0 <= byte_of c d < 256)%Z.
Proof.
  pose proof (ascii_forallb
    (λ c, forallb (λ d, (0 <=? byte_of c d)%Z && (byte_of c d <? 256)%Z)
       all_ascii)) as H.
  specialize (H ltac:(vm_compute; reflexivity) c).
  rewrite forallb_forall in H. specialize (H d (all_ascii_complete d)).
  apply andb_true_iff in H as [H1 H2]. lia.
Qed.

Lemma byte_number (z : Z) :
  (0 <= z < 256)%Z →
  out_of_range (Z2number z) = false ∧ in_byte_range (Z2number z) = true ∧
  digits_lit (decimal z) = true ∧ Number (decimal z) = Z2number z.
Proof.
  intros Hz.
  pose proof (byte_forallb
    (λ z, negb (out_of_range (Z2number z)) && in_byte_range (Z2number z)
          && digits_lit (decimal z)
          && Leibniz.eqb (Number (decimal z)) (Z2number z))
    ltac:(vm_compute; reflexivity) z Hz) as H.
  apply andb_true_iff in H as [[[H1 H2]%andb_true_iff H3]%andb_true_iff H4].
  apply negb_true_iff in H1. apply Leibniz.eqb_spec in H4. auto.
Qed.

(** ** Arrays *)

Lemma assertRgbColor_3 (r g b : float) :
  assertRgbColor [r; g; b] =
  if out_of_range r || out_of_range g || out_of_range b
  then Throw (UnsupportedFormat (bracketed [r; g; b]))
  else Ok tt.
Proof.
  unfold assertRgbColor. cbn [length Nat.ltb Nat.leb Nat.eqb orb andb existsb].
  rewrite orb_false_r, orb_assoc. reflexivity.
Qed.

Lemma assertRgbColor_4 (r g b a : float) :
  assertRgbColor [r; g; b; a] =
  if out_of_range r || out_of_range g || out_of_range b || out_of_range a
  then Throw (UnsupportedFormat (bracketed [r; g; b; a]))
  else if negb (a =? 1)
  then Throw (NeedsAlphaBlending (bracketed [r; g; b; a]) a)
  else Ok tt.
Proof.
  unfold assertRgbColor.
  cbn [length Nat.ltb Nat.leb Nat.eqb orb andb existsb nth].
  rewrite orb_false_r, !orb_assoc. reflexivity.
Qed.

Lemma colorLuminance_array_3 (r g b : float) :
  colorLuminance_array [r; g; b] =
  if out_of_range r || out_of_range g || out_of_range b
  then Throw (UnsupportedFormat (bracketed [r; g; b]))
  else Ok (relative_luminance r g b).
Proof.
  unfold colorLuminance_array. rewrite assertRgbColor_3.
  destruct (out_of_range r || out_of_range g || out_of_range b); reflexivity.
Qed.

Lemma reachable_wf (CACHE : gmap string float) : reachable CACHE → cache_wf CACHE.
Proof.
  induction 1 as [|color cache CACHE _ IH|color background CACHE _ IH].
  - exact cache_wf_empty.
  - destruct (colorLuminance color cache CACHE) as [r C'] eqn:E.
    exact (proj1 (colorLuminance_cache _ _ _ _ _ IH E)).
  - destruct (contrast color background CACHE) as [r C'] eqn:E.
    exact (proj1 (contrast_cache _ _ _ _ _ IH E)).
Qed.


Lemma substring_all (s : string) : String.substring 0 (String.length s) s = s.
Proof. induction s as [|c s IH]; [reflexivity|]. simpl. rewrite IH. reflexivity. Qed.




Lemma remove_spaces_rgb (a : bool) (d1 d2 d3 : string) :
  digits_lit d1 = true → digits_lit d2 = true → digits_lit d3 = true →
  remove_spaces (rgba_text a (mkGroups d1 d2 d3 None))
  = rgba_text a (mkGroups d1 d2 d3 None).
Proof.
  intros H1%digits_lit_all H2%digits_lit_all H3%digits_lit_all.
  unfold rgba_text, rgba_text_then. cbn [group1 group2 group3 group4].
  rewrite !remove_spaces_append.
  rewrite (remove_spaces_digits _ H1), (remove_spaces_digits _ H2),
    (remove_spaces_digits _ H3).
  destruct a; reflexivity.
Qed.

(** ** The properties *)

(** C1.  For every triple of components in [0, 255], the luminance is the
    weighted sum 0.2126 R + 0.7152 G + 0.0722 B of the channels, each
    divided by 255 and made linear: ((c + 0.055) / 1.055) ^ 2.4 when
    c > 0.03928, c / 12.92 otherwise.  The cache is not touched. *)
Theorem luminance_is_weighted_sum (r g b : float) (cache : bool)
    (CACHE : gmap string float) :
  in_byte_range r = true → in_byte_range g = true → in_byte_range b = true →
  colorLuminance (Arr [r; g; b]) cache CACHE =
  (Ok (Num (0.2126 * linearize (r / 255) + 0.7152 * linearize (g / 255)
            + 0.0722 * linearize (b / 255))), CACHE).
Proof.
  intros Hr Hg Hb. unfold colorLuminance, bind, lift, ret.
  rewrite colorLuminance_array_3.
  rewrite (in_byte_range_ok _ Hr), (in_byte_range_ok _ Hg),
    (in_byte_range_ok _ Hb).
  reflexivity.
Qed.

(** C2, at an input where it fails.  Both colours are valid and their
    luminances lie in [0, 1], the second below the first; [contrast] takes
    them in the order of their decimal texts, in which the text of the
    smaller one (in exponent notation) comes last, and returns the ratio
    with the smaller luminance above: not (l1 + 0.05) / (l2 + 0.05) for the
    larger l1 and the smaller l2. *)
Theorem contrast_orders_by_text :
  let la := 0.0030352698354883748 in
  let lb := 2.1914648212226065e-08 in
  colorLuminance (Arr [10; 10; 10]) true ∅ = (Ok (Num la), ∅) ∧
  colorLuminance (Arr [0; 0; 0.001]) true ∅ = (Ok (Num lb), ∅) ∧
  (0 <=? lb) = true ∧ (lb <? la) = true ∧ (la <=? 1) = true ∧
  Number_toString la = "0.003035269835488375" ∧
  Number_toString lb = "2.1914648212226065e-8" ∧
  fst (contrast (Arr [10; 10; 10]) (Arr [0; 0; 0.001]) ∅)
  = Ok ((lb + 0.05) / (la + 0.05)) ∧
  ((lb + 0.05) / (la + 0.05) =? (la + 0.05) / (lb + 0.05)) = false.
Proof. vm_compute. repeat split; reflexivity. Qed.

(** C3.  An input that is well formed but not opaque throws
    NeedsAlphaBlending with the literal and the alpha that was read: eight
    characters after [#] of which the last two do not read as 255; a string
    that, spaces removed, is a word of the pattern with an alpha component
    other than [1]; an array of four components within range whose fourth is
    not 1.  The cache is left as it was. *)
Theorem translucent_needs_alpha_blending (cache : bool)
    (CACHE : gmap string float) :
  cache_wf CACHE →
  (∀ h, String.length h = 8%nat → (hexToByte (slice 6 8 h) =? 255) = false →
     colorLuminance (Str ("#" +:+ h)) cache CACHE =
     (Throw (NeedsAlphaBlending ("#" +:+ h) (hexToByte (slice 6 8 h))), CACHE))
  ∧ (∀ color a g alpha,
       String.prefix "#" color = false →
       remove_spaces color = rgba_text a g →
       groups_lit alpha_lit g = true →
       group4 g = Some alpha → alpha ≠ "1" →
       colorLuminance (Str color) cache CACHE =
       (Throw (NeedsAlphaBlending color (Number alpha)), CACHE))
  ∧ (∀ r g b a,
       in_byte_range r = true → in_byte_range g = true →
       in_byte_range b = true → in_byte_range a = true → (a =? 1) = false →
       colorLuminance (Arr [r; g; b; a]) cache CACHE =
       (Throw (NeedsAlphaBlending (bracketed [r; g; b; a]) a), CACHE)).
Proof.
  intros Hwf. repeat split.
  - intros h Hlen Halpha.
    do 9 (destruct h as [|? h]; try discriminate).
    apply colorLuminance_throws_hash; [assumption| |reflexivity].
    change (slice 6 8 _) with (pair a5 a6) in *.
    change ("#" +:+ _) with (hex8 a a0 a1 a2 a3 a4 a5 a6).
    rewrite computed_hex8, Halpha. reflexivity.
  - intros color a g alpha Hhash Htext Hg Halpha Hne.
    apply colorLuminance_throws_other; [assumption| |discriminate].
    rewrite (computed_functional color a g "" Hhash Htext Hg).
    unfold translucent. rewrite Halpha.
    apply String.eqb_neq in Hne. rewrite Hne. reflexivity.
  - intros r g b a Hr Hg Hb Ha Hone. unfold colorLuminance, bind, lift, ret.
    unfold colorLuminance_array. rewrite assertRgbColor_4.
    rewrite (in_byte_range_ok _ Hr), (in_byte_range_ok _ Hg),
      (in_byte_range_ok _ Hb), (in_byte_range_ok _ Ha), Hone.
    reflexivity.
Qed.


(** C5.  The encodings of one colour have one luminance: the six digits
    [#rrggbb], the same with the alpha byte [FF], the three digits [#rgb]
    when each byte repeats a digit, [rgb(r,g,b)] in decimal, and the array
    of the three bytes. *)
Theorem encodings_agree (h1 h2 h3 h4 h5 h6 : ascii) (cache : bool)
    (CACHE : gmap string float) :
  cache_wf CACHE →
  forallb is_hex [h1; h2; h3; h4; h5; h6] = true →
  let r := byte_of h1 h2 in
  let g := byte_of h3 h4 in
  let b := byte_of h5 h6 in
  let luminance color := fst (colorLuminance color cache CACHE) in
  let array := luminance (Arr [Z2number r; Z2number g; Z2number b]) in
  array = Ok (Num (relative_luminance (Z2number r) (Z2number g) (Z2number b)))
  ∧ luminance (Str (hex6 h1 h2 h3 h4 h5 h6)) = array
  ∧ luminance (Str (hex8 h1 h2 h3 h4 h5 h6 "F" "F")) = array
  ∧ luminance (Str (hex8 h1 h2 h3 h4 h5 h6 "f" "f")) = array
  ∧ luminance (Str ("rgb(" +:+ decimal r +:+ "," +:+ decimal g +:+ "," +:+
                    decimal b +:+ ")")) = array
  ∧ (h1 = h2 → h3 = h4 → h5 = h6 → luminance (Str (hex3 h1 h3 h5)) = array).
Proof.
  intros Hwf Hhex r g b luminance array.
  cbn [forallb] in Hhex. rewrite andb_true_r in Hhex.
  apply andb_true_iff in Hhex as [E1 Hhex].
  apply andb_true_iff in Hhex as [E2 Hhex].
  apply andb_true_iff in Hhex as [E3 Hhex].
  apply andb_true_iff in Hhex as [E4 Hhex].
  apply andb_true_iff in Hhex as [E5 E6].
  destruct (byte_number r (byte_of_range h1 h2)) as (Or & _ & Dr & Nr).
  destruct (byte_number g (byte_of_range h3 h4)) as (Og & _ & Dg & Ng).
  destruct (byte_number b (byte_of_range h5 h6)) as (Ob & _ & Db & Nb).
  assert (Harr : array =
    number (colorLuminance_array [Z2number r; Z2number g; Z2number b])).
  { subst array luminance. cbn beta. rewrite colorLuminance_Arr. reflexivity. }
  assert (Hsix : number (computed (hex6 h1 h2 h3 h4 h5 h6)) = array).
  { rewrite computed_hex6, !hexToByte_pair by assumption. symmetry. exact Harr. }
  assert (Hhash : ∀ s, String.prefix "#" s = true →
                       luminance (Str s) = number (computed s)).
  { intros s Hs. apply colorLuminance_value;
      [assumption|apply hash_not_inherited, Hs]. }
  repeat split.
  - rewrite Harr, colorLuminance_array_3, Or, Og, Ob. reflexivity.
  - rewrite Hhash by reflexivity. exact Hsix.
  - rewrite Hhash by reflexivity. rewrite computed_hex8.
    replace (hexToByte (pair "F" "F") =? 255) with true
      by (vm_compute; reflexivity).
    rewrite <- computed_hex6. exact Hsix.
  - rewrite Hhash by reflexivity. rewrite computed_hex8.
    replace (hexToByte (pair "f" "f") =? 255) with true
      by (vm_compute; reflexivity).
    rewrite <- computed_hex6. exact Hsix.
  - change ("rgb(" +:+ decimal r +:+ "," +:+ decimal g +:+ "," +:+
            decimal b +:+ ")")
      with (rgba_text false (mkGroups (decimal r) (decimal g) (decimal b) None)).
    pose proof (remove_spaces_rgb false _ _ _ Dr Dg Db) as Hrs.
    subst luminance. cbn beta.
    rewrite colorLuminance_value;
      [|assumption|exact (word_not_inherited _ false _ "" Hrs)].
    rewrite (computed_functional _ false
               (mkGroups (decimal r) (decimal g) (decimal b) None) "").
    + cbn [translucent group1 group2 group3 group4].
      rewrite Nr, Ng, Nb. symmetry. exact Harr.
    + destruct (decimal r); reflexivity.
    + exact Hrs.
    + unfold groups_lit. cbn [group1 group2 group3 group4].
      rewrite Dr, Dg, Db. reflexivity.
  - intros -> -> ->. rewrite Hhash by reflexivity.
    rewrite computed_hex3, <- computed_hex6. exact Hsix.
Qed.

(** C6.  Black has luminance 0 and white has luminance 1, exactly.  White
    takes the exponentiation branch with the base 1, on which the
    exponentiation is assumed to return 1. *)
Theorem black_and_white (cache : bool) (CACHE : gmap string float) :
  pow 1 2.4 = 1 →
  colorLuminance (Arr [0; 0; 0]) cache CACHE = (Ok (Num 0), CACHE) ∧
  colorLuminance (Arr [255; 255; 255]) cache CACHE = (Ok (Num 1), CACHE).
Proof.
  intros Hpow. rewrite !colorLuminance_Arr. split.
  - vm_compute. reflexivity.
  - rewrite colorLuminance_array_3.
    replace (out_of_range 255) with false by (vm_compute; reflexivity).
    cbn [orb]. unfold relative_luminance, linearize.
    replace (255 / 255) with 1 by (vm_compute; reflexivity).
    replace (0.03928 <? 1) with true by (vm_compute; reflexivity).
    replace ((1 + 0.055) / 1.055) with 1 by (vm_compute; reflexivity).
    rewrite Hpow. vm_compute. reflexivity.
Qed.

(** C7, at an input where it fails.  For these two valid colours the result
    of [contrast] is below 1, whichever comes first. *)
Theorem contrast_below_one :
  let dark := Arr [10; 10; 10] in
  let faint := Arr [0; 0; 0.001] in
  fst (contrast dark faint ∅) = Ok 0.94276925656727528 ∧
  fst (contrast faint dark ∅) = Ok 0.94276925656727528 ∧
  (0.94276925656727528 <? 1) = true.
Proof. vm_compute. repeat split; reflexivity. Qed.

(** C8.  In every cache the program can be in, each entry maps a string to
    the luminance computed for that string.  A call on a string that
    succeeds leaves that string mapped to the value it returns; a call on an
    array, and a call that throws, leave the cache as it was; no call
    removes or changes an entry, and the only entry a call can add is the
    one of its own string, when it was missing.  The same holds after
    [contrast].  (A call that returns a member [CACHE] inherits adds no
    entry: the string already reads as that member.) *)
Theorem cache_discipline (color : OpaqueColor) (cache : bool)
    (CACHE CACHE' : gmap string float) (r : result Value) :
  reachable CACHE →
  colorLuminance color cache CACHE = (r, CACHE') →
  cache_wf CACHE ∧ cache_wf CACHE'
  ∧ CACHE ⊆ CACHE'
  ∧ match color, r with
    | Str s, Ok (Num v) => CACHE' = <[s := v]> CACHE
    | _, _ => CACHE' = CACHE
    end
  ∧ (∀ s v, color = Str s → r = Ok v → read s CACHE' = v)
  ∧ (∀ key, CACHE' !! key ≠ CACHE !! key →
       CACHE !! key = None ∧ color = Str key ∧
       ∃ v : float, r = Ok (Num v) ∧ CACHE' !! key = Some v)
  ∧ (∀ background r2 CACHE2,
       contrast color background CACHE = (r2, CACHE2) →
       cache_wf CACHE2 ∧ CACHE ⊆ CACHE2).
Proof.
  intros Hwf%reachable_wf Hcall.
  destruct (colorLuminance_cache _ _ _ _ _ Hwf Hcall) as (Hwf' & Hsub & Hshape).
  do 4 (split; [assumption|]). split; [|split].
  - intros s v -> ->.
    pose proof (colorLuminance_outcome s cache CACHE Hwf) as Hr.
    rewrite Hcall in Hr. cbn [fst] in Hr. unfold returned in Hr.
    destruct (cache && inherited s) eqn:E.
    + injection Hr as ->. subst CACHE'.
      apply andb_true_iff in E as [_ E]. unfold read.
      rewrite (cache_wf_inherited _ _ Hwf E), E. reflexivity.
    + destruct (computed s) as [w|e]; [|discriminate].
      injection Hr as ->. subst CACHE'. unfold read.
      rewrite lookup_insert_eq. reflexivity.
  - intros key Hkey. destruct color as [s|a]; [|subst; congruence].
    destruct r as [[v| | |]|e]; try (subst; congruence).
    destruct (decide (s = key)) as [->|Hne];
      [|subst CACHE'; rewrite lookup_insert_ne in Hkey by assumption;
        congruence].
    assert (Hnew : CACHE' !! key = Some v)
      by (subst CACHE'; apply lookup_insert_eq).
    assert (Hold : CACHE !! key = None).
    { destruct (CACHE !! key) as [w|] eqn:E; [|reflexivity].
      pose proof (Hwf _ _ E) as Hw. pose proof (Hwf' _ _ Hnew) as Hv.
      congruence. }
    eauto.
  - intros background r2 CACHE2 H. exact (contrast_cache _ _ _ _ _ Hwf H).
Qed.

(** C9.  Some strings of [#] and three, or six, characters that are not
    digits of radix 16 raise no error and have the luminance NaN: the bytes
    read as NaN, and NaN passes the range check of the array. *)
Theorem invalid_hex_digits_give_NaN :
  hexToByte "zz" = nan ∧ out_of_range nan = false
  ∧ assertRgbColor [nan; nan; nan] = Ok tt
  ∧ colorLuminance (Str "#zzz") true ∅ = (Ok (Num nan), {["#zzz" := nan]})
  ∧ colorLuminance (Str "#zzzzzz") true ∅
    = (Ok (Num nan), {["#zzzzzz" := nan]}).
Proof.
  repeat split; vm_compute; reflexivity.
Qed.


(** ** More on numbers *)

Lemma Prim2SF_inj (x y : float) : Prim2SF x = Prim2SF y → x = y.
Proof.
  intros H. rewrite <- (SF2Prim_Prim2SF x), <- (SF2Prim_Prim2SF y), H.
  reflexivity.
Qed.

Lemma nan_add_l (x : float) : nan + x = nan.
Proof. apply Prim2SF_inj. rewrite add_spec. reflexivity. Qed.

Lemma nan_add_r (x : float) : x + nan = nan.
Proof.
  apply Prim2SF_inj. rewrite add_spec. change (Prim2SF nan) with S754_nan.
  destruct (Prim2SF x) as [[]|[]| |]; reflexivity.
Qed.

Lemma nan_mul_r (x : float) : x * nan = nan.
Proof.
  apply Prim2SF_inj. rewrite mul_spec. change (Prim2SF nan) with S754_nan.
  destruct (Prim2SF x) as [[]|[]| |]; reflexivity.
Qed.

Lemma nan_div_l (x : float) : nan / x = nan.
Proof. apply Prim2SF_inj. rewrite div_spec. reflexivity. Qed.

Lemma nan_div_r (x : float) : x / nan = nan.
Proof.
  apply Prim2SF_inj. rewrite div_spec. change (Prim2SF nan) with S754_nan.
  destruct (Prim2SF x) as [[]|[]| |]; reflexivity.
Qed.

Lemma ltb_nan_l (x : float) : (nan <? x) = false.
Proof. rewrite ltb_spec. reflexivity. Qed.

Lemma ltb_nan_r (x : float) : (x <? nan) = false.
Proof.
  rewrite ltb_spec. change (Prim2SF nan) with S754_nan.
  destruct (Prim2SF x) as [[]|[]| |]; reflexivity.
Qed.

Lemma positive_shape (x : float) :
  (0 <? x) = true →
  Prim2SF x = S754_infinity false ∨ ∃ m e, Prim2SF x = S754_finite false m e.
Proof.
  rewrite ltb_spec. change (Prim2SF 0) with (S754_zero false).
  destruct (Prim2SF x) as [s|s| |s m e]; simpl; try discriminate;
    destruct s; try discriminate; eauto.
Qed.

(** A number that is not below zero is a zero, NaN, or above zero. *)
Lemma not_negative_cases (x : float) :
  (x <? 0) = false → x = 0 ∨ x = (-0) ∨ x = nan ∨ (0 <? x) = true.
Proof.
  rewrite !ltb_spec. change (Prim2SF 0) with (S754_zero false).
  destruct (Prim2SF x) as [s|s| |s m e] eqn:E; simpl.
  - intros _. destruct s; [right; left|left]; apply Prim2SF_inj;
      rewrite E; reflexivity.
  - destruct s; [discriminate|auto].
  - intros _. right; right; left. apply Prim2SF_inj. rewrite E. reflexivity.
  - destruct s; [discriminate|auto].
Qed.

(** The range check lets through the numbers from 0 to 255, and NaN. *)
Lemma out_of_range_false (d : float) :
  out_of_range d = false ↔ in_byte_range d = true ∨ d = nan.
Proof.
  split.
  - unfold out_of_range, in_byte_range.
    intros [H0 H255]%orb_false_iff.
    destruct (Prim2SF d) as [s|s| |s m e] eqn:E.
    2: { rewrite ltb_spec, E in H0, H255. destruct s; discriminate. }
    2: { right. apply Prim2SF_inj. rewrite E. reflexivity. }
    all: left; apply andb_true_iff; rewrite !leb_spec;
      rewrite ltb_spec in H0, H255; rewrite E in *; unfold SFleb, SFltb in *.
    + split; reflexivity.
    + destruct (SFcompare (Prim2SF 255) (S754_finite s m e)) as [c|] eqn:Ec;
        [|discriminate Ec].
      rewrite (SFcompare_antisym _ _ _ Ec).
      change (Prim2SF 0) with (S754_zero false) in *.
      destruct s; [discriminate|]. destruct c; try discriminate; auto.
  - intros [H| ->]; [exact (in_byte_range_ok d H)|reflexivity].
Qed.

Lemma SFdiv_self (s : bool) (m : positive) (e : Z) :
  SFdiv prec emax (S754_finite s m e) (S754_finite s m e) = Prim2SF 1.
Proof.
  unfold SFdiv, SFdiv_core_binary.
  replace (Zdigits2 (Z.pos m) + e - (Zdigits2 (Z.pos m) + e))%Z with 0%Z by lia.
  rewrite Z.sub_diag.
  change (IntDef.Z.min (fexp prec emax 0) 0) with (-53)%Z.
  change (0 - -53)%Z with 53%Z. cbv iota beta.
  change (IntDef.Z.shiftl (Z.pos m) 53) with (Z.shiftl (Z.pos m) 53).
  rewrite Z.shiftl_mul_pow2 by lia.
  change IntDef.Z.div_eucl with Z.div_eucl.
  assert (Hq : (Z.pos m * 2 ^ 53 / Z.pos m = 2 ^ 53)%Z)
    by (rewrite Z.mul_comm; apply Z.div_mul; lia).
  assert (Hr : ((Z.pos m * 2 ^ 53) mod Z.pos m = 0)%Z)
    by (rewrite Z.mul_comm; apply Z.mod_mul; lia).
  unfold Z.div, Z.modulo in Hq, Hr.
  destruct (Z.div_eucl (Z.pos m * 2 ^ 53) (Z.pos m)) as [q r]. subst q r.
  replace (new_location (Z.pos m) 0) with loc_Exact
    by (unfold new_location; destruct (IntDef.Z.even (Z.pos m)); reflexivity).
  rewrite xorb_nilpotent. vm_compute. reflexivity.
Qed.

(** A finite number above zero divided by itself is 1. *)
Lemma div_self (x : float) :
  (0 <? x) = true → (x <? infinity) = true → x / x = 1.
Proof.
  intros Hpos Hfin. apply Prim2SF_inj. rewrite div_spec.
  destruct (positive_shape x Hpos) as [H|(m & e & H)].
  - rewrite ltb_spec, H in Hfin. discriminate.
  - rewrite H. apply SFdiv_self.
Qed.

(** ** The text of a number above zero comes after the text of zero *)

Lemma closer_either (a b : Q * Z * Z) : closer a b = a ∨ closer a b = b.
Proof.
  destruct a as [[da sa] na], b as [[db sb] nb]. unfold closer.
  destruct (Qle_bool da db), (Qle_bool db da), (Z.even sa); auto.
Qed.

Lemma closest_In (l : list (Q * Z * Z)) (x : Q * Z * Z) :
  closest l = Some x → In x l.
Proof.
  revert x. induction l as [|a l IH]; intros x; [discriminate|].
  cbn [closest]. destruct (closest l) as [b|].
  - intros [= <-]. destruct (closer_either a b) as [->| ->];
      [left; reflexivity|right; apply IH; reflexivity].
  - intros [= <-]. left. reflexivity.
Qed.

Lemma candidates_digits (x lo hi : Q) (closed : bool) (k n : Z)
    (d : Q) (s n' : Z) :
  (1 <= k)%Z → In (d, s, n') (candidates x lo hi closed k n) → (1 <= s)%Z.
Proof.
  intros Hk. unfold candidates. cbv zeta. rewrite in_map_iff.
  intros (s' & [= _ <- _] & Hin). apply filter_In in Hin as [_ Hok].
  apply andb_true_iff in Hok as [Hok _].
  apply andb_true_iff in Hok as [Hok _]. apply Z.leb_le in Hok.
  pose proof (Z.pow_pos_nonneg 10 (k - 1)). lia.
Qed.

Lemma shortest_digits (fuel : nat) (x lo hi : Q) (closed : bool)
    (k k' s n : Z) :
  (1 <= k)%Z → shortest fuel x lo hi closed k = (k', s, n) →
  (1 <= s)%Z ∨ (s = 0 ∧ n = 0)%Z.
Proof.
  revert k. induction fuel as [|fuel IH]; intros k Hk; cbn [shortest];
    cbv zeta;
    destruct (closest _) as [[[d s0] n0]|] eqn:E.
  - intros [= _ <- <-]. left. apply closest_In in E.
    apply in_flat_map in E as (n1 & _ & Hin).
    exact (candidates_digits _ _ _ _ _ _ _ _ _ Hk Hin).
  - intros [= _ <- <-]. auto.
  - intros [= _ <- <-]. left. apply closest_In in E.
    apply in_flat_map in E as (n1 & _ & Hin).
    exact (candidates_digits _ _ _ _ _ _ _ _ _ Hk Hin).
  - apply IH. lia.
Qed.

Lemma decimal_head (z : Z) :
  ∃ c r, decimal z = String c r ∧ is_digit c = true.
Proof.
  unfold decimal. destruct (N.to_uint (Z.to_N z)); cbn; eauto.
Qed.

Lemma decimal_not_zero (z : Z) : (1 <= z)%Z → decimal z ≠ "0".
Proof.
  intros Hz. unfold decimal. destruct (Z.to_N z) as [|p] eqn:E; [lia|].
  cbn [N.to_uint].
  pose proof (DecimalPos.Unsigned.to_uint_nonnil p) as Hnil.
  pose proof (DecimalPos.Unsigned.to_uint_nonzero p) as Hzero.
  destruct (Pos.to_uint p) as [|u|u|u|u|u|u|u|u|u|u]; cbn;
    try congruence; try discriminate.
  destruct u; cbn; try discriminate. congruence.
Qed.

Lemma digit_after_zero (c : ascii) :
  is_digit c = true → c = "0"%char ∨ Ascii.compare c "0" = Gt.
Proof.
  intros Hc.
  pose proof (ascii_forallb
    (λ c, implb (is_digit c)
            (Ascii.eqb c "0"
             || match Ascii.compare c "0" with Gt => true | _ => false end))
    ltac:(vm_compute; reflexivity) c) as H.
  cbv beta in H. rewrite Hc in H. cbn [implb] in H. apply orb_true_iff in H as [H|H].
  - left. apply Ascii.eqb_eq. exact H.
  - right. destruct (Ascii.compare c "0"); congruence.
Qed.

Lemma text_after_zero (c : ascii) (r : string) :
  is_digit c = true → c ≠ "0"%char ∨ r ≠ "" →
  String.compare (String c r) "0" = Gt.
Proof.
  intros Hc Hne. cbn [String.compare].
  destruct (digit_after_zero c Hc) as [->|Hgt].
  - change (Ascii.compare "0" "0") with Eq. cbv iota.
    destruct r; [destruct Hne; congruence|reflexivity].
  - rewrite Hgt. reflexivity.
Qed.

Lemma append_not_empty (s : string) (c : ascii) (r : string) :
  s +:+ String c r ≠ "".
Proof. destruct s; [rewrite append_empty|rewrite append_cons]; discriminate. Qed.

Lemma layout_after_zero (c : ascii) (r : string) (n : Z) :
  is_digit c = true → String c r ≠ "0" ∨ n ≠ 1%Z →
  String.compare (layout (String c r) n) "0" = Gt.
Proof.
  intros Hc Hne. unfold layout.
  set (k := Z.of_nat (String.length (String c r))).
  assert (Hk : k = (1 + Z.of_nat (String.length r))%Z)
    by (subst k; cbn [String.length]; lia).
  destruct ((k <=? n)%Z && (n <=? 21)%Z) eqn:B1.
  { apply andb_true_iff in B1 as [B1 _]. apply Z.leb_le in B1.
    rewrite append_cons. apply text_after_zero; [assumption|].
    destruct (Ascii.eqb_spec c "0") as [->|Hc0]; [|left; assumption].
    right. destruct r as [|c' r'].
    - destruct Hne as [Hne|Hne]; [congruence|].
      cbn [String.length] in Hk.
      replace (Z.to_nat (n - k)) with (S (Z.to_nat (n - k - 1))) by lia.
      rewrite append_empty. discriminate.
    - rewrite append_cons. discriminate. }
  destruct ((0 <? n)%Z && (n <=? 21)%Z) eqn:B2.
  { apply andb_true_iff in B2 as [B2 _]. apply Z.ltb_lt in B2.
    replace (Z.to_nat n) with (S (Z.to_nat (n - 1))) by lia.
    cbn [String.substring]. rewrite append_cons.
    apply text_after_zero; [assumption|]. right. apply append_not_empty. }
  destruct ((-6 <? n)%Z && (n <=? 0)%Z) eqn:B3.
  { reflexivity. }
  cbv zeta. destruct (k =? 1)%Z.
  - rewrite append_cons. apply text_after_zero; [assumption|].
    right. apply append_not_empty.
  - cbn [String.substring]. rewrite append_cons.
    apply text_after_zero; [assumption|]. right.
    destruct r; rewrite append_empty; discriminate.
Qed.

Lemma positive_to_string_after_zero (m : positive) (e : Z) :
  String.compare (positive_to_string m e) "0" = Gt.
Proof.
  unfold positive_to_string. cbv zeta.
  destruct (shortest _ _ _ _ _ _) as [[k s] n] eqn:E.
  apply shortest_digits in E; [|lia].
  destruct (decimal_head s) as (c & r & Hd & Hc). rewrite Hd.
  apply layout_after_zero; [assumption|].
  destruct E as [Hs|[-> ->]].
  - left. rewrite <- Hd. apply decimal_not_zero. exact Hs.
  - right. discriminate.
Qed.

Lemma Number_toString_after_zero (v : float) :
  (0 <? v) = true → SortCompare v 0 = Gt ∧ SortCompare 0 v = Lt.
Proof.
  intros Hv.
  assert (H : String.compare (Number_toString v) "0" = Gt).
  { unfold Number_toString.
    destruct (positive_shape v Hv) as [->|(m & e & ->)]; [reflexivity|].
    rewrite append_empty. apply positive_to_string_after_zero. }
  unfold SortCompare. cbn [ToString]. change (Number_toString 0) with "0".
  split; [exact H|]. rewrite String.compare_antisym, H. reflexivity.
Qed.

(** ** Calls in a well-formed cache *)

Lemma cache_after_throw (color : OpaqueColor) (e : Error)
    (CACHE : gmap string float) :
  luminance_value color = Throw e → cache_after color CACHE = CACHE.
Proof.
  intros H. unfold cache_after. destruct color; [rewrite H|]; reflexivity.
Qed.

Lemma returned_throw (color : OpaqueColor) (cache : bool) (e : Error) :
  returned color cache = Throw e → luminance_value color = Throw e.
Proof.
  unfold returned, luminance_value. destruct color as [s|a].
  - destruct (cache && inherited s); [discriminate|].
    destruct (computed s); cbn [number]; congruence.
  - destruct (colorLuminance_array a); cbn [number]; congruence.
Qed.

Lemma returned_plain (color : OpaqueColor) (cache : bool) :
  cache && negb (plain color) = false →
  returned color cache = number (luminance_value color).
Proof.
  unfold returned, plain, luminance_value. destruct color as [s|a];
    [|reflexivity].
  rewrite negb_involutive. intros ->. reflexivity.
Qed.

Lemma colorLuminance_run (color : OpaqueColor) (cache : bool)
    (CACHE : gmap string float) :
  cache_wf CACHE →
  colorLuminance color cache CACHE
  = (returned color cache, cache_after color CACHE).
Proof.
  intros Hwf. destruct color as [s|a].
  - pose proof (colorLuminance_outcome s cache CACHE Hwf) as Hfst.
    destruct (colorLuminance (Str s) cache CACHE) as [r C'] eqn:Hcall.
    cbn [fst] in Hfst. subst r.
    destruct (colorLuminance_cache _ _ _ _ _ Hwf Hcall) as (_ & _ & Hshape).
    f_equal. unfold cache_after. cbn [luminance_value].
    unfold returned in Hshape.
    destruct (cache && inherited s) eqn:E.
    + apply andb_true_iff in E as [_ E].
      rewrite (inherited_computed _ E). exact Hshape.
    + destruct (computed s); exact Hshape.
  - rewrite colorLuminance_Arr. reflexivity.
Qed.

Lemma cache_after_wf (color : OpaqueColor) (CACHE : gmap string float) :
  cache_wf CACHE → cache_wf (cache_after color CACHE).
Proof.
  intros Hwf. unfold cache_after. destruct color as [s|a]; [|assumption].
  cbn [luminance_value]. destruct (computed s) as [v|e] eqn:E; [|assumption].
  apply cache_wf_insert; assumption.
Qed.

Lemma cache_after_idem (color : OpaqueColor) (CACHE : gmap string float) :
  cache_after color (cache_after color CACHE) = cache_after color CACHE.
Proof.
  unfold cache_after. destruct color as [s|a]; [|reflexivity].
  destruct (luminance_value (Str s)); [|reflexivity].
  apply insert_insert_eq.
Qed.

Lemma cache_after_comm (c1 c2 : OpaqueColor) (CACHE : gmap string float) :
  cache_after c1 (cache_after c2 CACHE) = cache_after c2 (cache_after c1 CACHE).
Proof.
  unfold cache_after.
  destruct c1 as [s1|a1], c2 as [s2|a2]; try reflexivity;
    try (destruct (luminance_value _); reflexivity).
  destruct (luminance_value (Str s1)) as [v1|e1] eqn:E1,
    (luminance_value (Str s2)) as [v2|e2] eqn:E2; try reflexivity.
  destruct (decide (s1 = s2)) as [->|Hne].
  - rewrite E1 in E2. injection E2 as ->. reflexivity.
  - apply insert_insert_ne. exact Hne.
Qed.

Lemma contrast_run (color background : OpaqueColor)
    (CACHE : gmap string float) :
  cache_wf CACHE →
  contrast color background CACHE =
  match returned color true with
  | Throw e => (Throw e, CACHE)
  | Ok la =>
      match returned background true with
      | Throw e => (Throw e, cache_after color CACHE)
      | Ok lb =>
          (Ok (ratio la lb),
           cache_after background (cache_after color CACHE))
      end
  end.
Proof.
  intros Hwf. unfold contrast, bind, ret.
  rewrite (colorLuminance_run color true CACHE Hwf).
  destruct (returned color true) as [la|e] eqn:Ea.
  - rewrite (colorLuminance_run background true _ (cache_after_wf color _ Hwf)).
    destruct (returned background true) as [lb|e] eqn:Eb.
    + reflexivity.
    + rewrite (cache_after_throw background e); [reflexivity|].
      exact (returned_throw _ _ _ Eb).
  - rewrite (cache_after_throw color e); [reflexivity|].
    exact (returned_throw _ _ _ Ea).
Qed.

Lemma ratio_of_same (l : float) : ratio_of l l = (l + 0.05) / (l + 0.05).
Proof.
  unfold ratio_of, ratio. cbn [sort sort_insert].
  destruct (SortCompare l l); reflexivity.
Qed.

Lemma ratio_of_comm (la lb : float) :
  la = lb ∨ Number_toString la ≠ Number_toString lb →
  ratio_of la lb = ratio_of lb la.
Proof.
  intros [->|Hne]; [reflexivity|].
  unfold ratio_of, ratio. cbn [sort sort_insert]. unfold SortCompare.
  cbn [ToString].
  rewrite (String.compare_antisym (Number_toString lb) (Number_toString la)).
  destruct (String.compare (Number_toString la) (Number_toString lb)) eqn:E;
    try reflexivity.
  apply String.compare_eq_iff in E. congruence.
Qed.

Lemma ratio_of_zero (l : float) :
  (l <? 0) = false →
  ratio_of l 0 = (l + 0.05) / 0.05 ∧ ratio_of 0 l = (l + 0.05) / 0.05.
Proof.
  intros [->|[->|[->|Hpos]]]%not_negative_cases.
  1-3: split; vm_compute; reflexivity.
  destruct (Number_toString_after_zero l Hpos) as [Hgt Hlt].
  unfold ratio_of, ratio. cbn [sort sort_insert]. rewrite Hgt, Hlt.
  split; reflexivity.
Qed.

(** [contrast] gives NaN as soon as one of the two values is NaN, in
    whichever order [sort] leaves them. *)
Lemma ratio_nan (v : Value) : ratio (Num nan) v = nan ∧ ratio v (Num nan) = nan.
Proof.
  unfold ratio. cbn [sort sort_insert].
  split; destruct (SortCompare _ _); cbn [nth plus]; unfold divide;
    cbn [ToNumber]; rewrite ?nan_add_l, ?nan_div_l, ?nan_div_r; reflexivity.
Qed.

(** ** More properties of the calls *)

(** X1.  A call repeated on the same colour returns what the first call
    returned and leaves the cache as the first call left it, when the two
    calls have the same [cache] argument, and whatever these arguments are
    when the colour is not the name of a member that [CACHE] inherits. *)
Theorem repeated_call_is_stable (color : OpaqueColor) (first again : bool)
    (CACHE CACHE' : gmap string float) (r : result Value) :
  reachable CACHE →
  first = again ∨ plain color = true →
  colorLuminance color first CACHE = (r, CACHE') →
  colorLuminance color again CACHE' = (r, CACHE').
Proof.
  intros Hwf%reachable_wf Hsame. rewrite (colorLuminance_run _ _ _ Hwf).
  intros [= <- <-].
  rewrite (colorLuminance_run _ _ _ (cache_after_wf _ _ Hwf)), cache_after_idem.
  f_equal. destruct Hsame as [->|Hp]; [reflexivity|].
  rewrite !returned_plain by (rewrite Hp; apply andb_false_r). reflexivity.
Qed.

(** X2.  What [colorLuminance] and [contrast] return (a value or an error)
    does not depend on the cache the program is in.  For [colorLuminance]
    it does not depend on the [cache] argument either, when the colour is
    not the name of a member that [CACHE] inherits. *)
Theorem value_does_not_depend_on_cache (color background : OpaqueColor)
    (c1 c2 : bool) (CACHE1 CACHE2 : gmap string float) :
  reachable CACHE1 → reachable CACHE2 →
  fst (colorLuminance color c1 CACHE1) = fst (colorLuminance color c1 CACHE2)
  ∧ (plain color = true →
     fst (colorLuminance color c1 CACHE1)
     = fst (colorLuminance color c2 CACHE2))
  ∧ fst (contrast color background CACHE1)
    = fst (contrast color background CACHE2).
Proof.
  intros H1%reachable_wf H2%reachable_wf.
  rewrite !colorLuminance_run, !contrast_run by assumption.
  split; [reflexivity|]. split.
  - intros Hp. cbn [fst].
    rewrite !returned_plain by (rewrite Hp; apply andb_false_r). reflexivity.
  - destruct (returned color true); [|reflexivity].
    destruct (returned background true); reflexivity.
Qed.

(** X3.  Two calls leave the same cache in either order. *)
Theorem call_order_does_not_matter (c1 c2 : OpaqueColor) (f1 f2 : bool)
    (CACHE : gmap string float) :
  reachable CACHE →
  snd (colorLuminance c2 f2 (snd (colorLuminance c1 f1 CACHE)))
  = snd (colorLuminance c1 f1 (snd (colorLuminance c2 f2 CACHE))).
Proof.
  intros Hwf%reachable_wf.
  rewrite (colorLuminance_run c1 f1 _ Hwf), (colorLuminance_run c2 f2 _ Hwf).
  cbn [snd].
  rewrite (colorLuminance_run c2 f2 _ (cache_after_wf c1 _ Hwf)),
    (colorLuminance_run c1 f1 _ (cache_after_wf c2 _ Hwf)).
  cbn [snd]. apply cache_after_comm.
Qed.

(** X4.  [contrast] succeeds exactly when both colours do.  When the first
    colour fails, its error is raised and the cache is untouched; when only
    the second fails, its error is raised and the cache is left as a call on
    the first colour alone leaves it. *)
Theorem contrast_raises_the_first_failure (color background : OpaqueColor)
    (CACHE : gmap string float) :
  reachable CACHE →
  let first := colorLuminance color true CACHE in
  let second := colorLuminance background true CACHE in
  is_ok (fst (contrast color background CACHE))
  = is_ok (fst first) && is_ok (fst second)
  ∧ (∀ e, fst first = Throw e →
       contrast color background CACHE = (Throw e, CACHE))
  ∧ (∀ e, is_ok (fst first) = true → fst second = Throw e →
       contrast color background CACHE = (Throw e, snd first)).
Proof.
  intros Hwf%reachable_wf first second. subst first second.
  rewrite !colorLuminance_run, contrast_run by assumption. cbn [fst snd].
  destruct (returned color true) as [la|ea];
    destruct (returned background true) as [lb|eb]; cbn [fst is_ok andb];
    repeat split; try discriminate; intros; congruence.
Qed.

(** X5.  Two colours with the same luminance have the contrast 1, when the
    luminance plus 0.05 is a finite number above zero (as it is for every
    luminance from 0 to 1). *)
Theorem equal_luminances_have_contrast_one (color background : OpaqueColor)
    (l : float) (CACHE : gmap string float) :
  reachable CACHE →
  fst (colorLuminance color true CACHE) = Ok (Num l) →
  fst (colorLuminance background true CACHE) = Ok (Num l) →
  (0 <? l + 0.05) = true → (l + 0.05 <? infinity) = true →
  fst (contrast color background CACHE) = Ok 1.
Proof.
  intros Hwf%reachable_wf. rewrite !colorLuminance_run, contrast_run by assumption.
  cbn [fst]. intros -> -> Hpos Hfin. cbn [fst].
  change (ratio (Num l) (Num l)) with (ratio_of l l).
  rewrite ratio_of_same, div_self by assumption. reflexivity.
Qed.

(** X6.  Against a colour of luminance 0 the contrast of a colour of
    luminance [l], not below zero, is (l + 0.05) / 0.05 in either order of
    the arguments: the text of zero comes before the text of every other
    such number. *)
Theorem contrast_against_black (color black : OpaqueColor) (l : float)
    (CACHE : gmap string float) :
  reachable CACHE →
  fst (colorLuminance color true CACHE) = Ok (Num l) →
  fst (colorLuminance black true CACHE) = Ok (Num 0) →
  (l <? 0) = false →
  fst (contrast color black CACHE) = Ok ((l + 0.05) / 0.05)
  ∧ fst (contrast black color CACHE) = Ok ((l + 0.05) / 0.05).
Proof.
  intros Hwf%reachable_wf. rewrite !colorLuminance_run, !contrast_run by assumption.
  cbn [fst]. intros -> -> Hl. cbn [fst].
  destruct (ratio_of_zero l Hl) as [H1 H2]. unfold ratio_of in H1, H2.
  rewrite H1, H2. split; reflexivity.
Qed.

(** X7.  [contrast] is symmetric, in its value and in the cache it leaves,
    for two colours whose luminances are the same number or have different
    decimal texts. *)
Theorem contrast_is_symmetric (color background : OpaqueColor)
    (la lb : float) (CACHE : gmap string float) :
  reachable CACHE →
  fst (colorLuminance color true CACHE) = Ok (Num la) →
  fst (colorLuminance background true CACHE) = Ok (Num lb) →
  la = lb ∨ Number_toString la ≠ Number_toString lb →
  contrast color background CACHE = contrast background color CACHE.
Proof.
  intros Hwf%reachable_wf. rewrite !colorLuminance_run, !contrast_run by assumption.
  cbn [fst]. intros -> -> Hne.
  pose proof (ratio_of_comm la lb Hne) as Hr. unfold ratio_of in Hr.
  rewrite Hr, cache_after_comm. reflexivity.
Qed.

(** ** More properties of the notations *)

Lemma slice_from_hash (h : string) : slice_from 1 (String "#" h) = h.
Proof.
  unfold slice_from. cbn [String.length String.substring Nat.sub].
  rewrite Nat.sub_0_r. apply substring_all.
Qed.

(** The call on [#] and the characters [h], when it does not answer from
    the cache. *)
Lemma computed_hash (h : string) :
  computed (String "#" h) =
  if (String.length h =? 3)%nat then
    colorLuminance_array
      [ hexToByte (at_index 0 h +:+ at_index 0 h);
        hexToByte (at_index 1 h +:+ at_index 1 h);
        hexToByte (at_index 2 h +:+ at_index 2 h) ]
  else if (String.length h =? 8)%nat && negb (hexToByte (slice 6 8 h) =? 255)
  then Throw (NeedsAlphaBlending (String "#" h) (hexToByte (slice 6 8 h)))
  else if (String.length h =? 6)%nat || (String.length h =? 8)%nat
  then colorLuminance_array
         [ hexToByte (slice 0 2 h); hexToByte (slice 2 4 h);
           hexToByte (slice 4 6 h) ]
  else Throw (UnsupportedFormat (String "#" h)).
Proof.
  unfold computed, colorLuminance_uncached, bind, cache_set, lift, ret,
    throw.
  cbn [andb fst].
  assert (Hhash : String.prefix "#" (String "#" h) = true)
    by (destruct h; reflexivity).
  rewrite Hhash, slice_from_hash.
  destruct (String.length h =? 3)%nat.
  { destruct (colorLuminance_array _); reflexivity. }
  destruct (String.length h =? 8)%nat; cbn [andb orb]; rewrite ?orb_true_r.
  - destruct (negb _); [reflexivity|].
    destruct (colorLuminance_array _); reflexivity.
  - destruct (String.length h =? 6)%nat; cbn [orb];
      [destruct (colorLuminance_array _)|]; reflexivity.
Qed.

(** The call on a string without [#] in front, when it does not answer
    from the cache. *)
Lemma computed_plain (color : string) :
  String.prefix "#" color = false →
  computed color =
  match RGBA_match (remove_spaces color) with
  | Some matches =>
      if translucent matches
      then Throw (NeedsAlphaBlending color
                    (Number (default "" (group4 matches))))
      else colorLuminance_array
             [ Number (group1 matches); Number (group2 matches);
               Number (group3 matches) ]
  | None => Throw (UnsupportedFormat color)
  end.
Proof.
  intros Hhash.
  destruct (RGBA_match (remove_spaces color)) as [g|] eqn:Hm.
  - assert (Hat : ∃ pre suf rest,
      remove_spaces color = pre +:+ suf ∧ RGBA_at suf = Some (g, rest)).
    { clear Hhash. revert Hm. generalize (remove_spaces color). intros s.
      induction s as [|c s IH]; cbn [RGBA_match].
      - destruct (RGBA_at "") as [[g' r]|] eqn:E; [|discriminate].
        intros [= ->]. exists "", "", r. auto.
      - destruct (RGBA_at (String c s)) as [[g' r]|] eqn:E.
        + intros [= ->]. exists "", (String c s), r. auto.
        + intros (pre & suf & rest & -> & H)%IH.
          exists (String c pre), suf, rest. auto. }
    destruct Hat as (pre & suf & rest & _ & Hat).
    destruct (RGBA_at_sound _ _ _ Hat) as (_ & _ & Hg).
    unfold computed, colorLuminance_uncached, bind, cache_set, lift, ret,
      throw.
    cbn [andb fst]. rewrite Hhash, Hm. unfold translucent.
    destruct (group4 g) as [x|] eqn:Ex.
    + assert (Hx : alpha_lit x = true).
      { unfold groups_lit in Hg. rewrite Ex in Hg.
        apply andb_true_iff in Hg as [_ Hg]. exact Hg. }
      rewrite (alpha_lit_nonempty _ Hx). cbn [negb andb default].
      destruct (negb (String.eqb x "1")); [reflexivity|].
      destruct (colorLuminance_array _); reflexivity.
    + destruct (colorLuminance_array _); reflexivity.
  - unfold computed, colorLuminance_uncached, bind, throw.
    cbn [andb fst]. rewrite Hhash, Hm. reflexivity.
Qed.

Lemma existsb_false {A} (f : A → bool) (l : list A) :
  existsb f l = false ↔ Forall (λ x, f x = false) l.
Proof.
  induction l as [|x l IH]; cbn [existsb].
  - split; [constructor|reflexivity].
  - rewrite orb_false_iff, IH. split.
    + intros [H1 H2]. constructor; assumption.
    + intros H. inversion H; subst. auto.
Qed.

Lemma relative_luminance_nan (r g b : float) :
  r = nan ∨ g = nan ∨ b = nan → relative_luminance r g b = nan.
Proof.
  assert (Hlin : linearize (nan / 255) = nan).
  { unfold linearize. rewrite nan_div_l, ltb_nan_r. apply nan_div_l. }
  unfold relative_luminance. intros [->|[->| ->]]; rewrite Hlin, nan_mul_r.
  - rewrite !nan_add_l. reflexivity.
  - rewrite nan_add_r, nan_add_l. reflexivity.
  - apply nan_add_r.
Qed.

Lemma pair_facts (c d : ascii) :
  out_of_range (hexToByte (pair c d)) = reads_negative c d
  ∧ (hexToByte (pair c d) =? 255) = is_f c && is_f d
  ∧ (unreadable c = true → hexToByte (pair c d) = nan)
  ∧ out_of_range (hexToByte (pair c c)) = false
  ∧ (is_hex c = false → hexToByte (pair c c) = nan).
Proof.
  pose proof (ascii_forallb
    (λ c, forallb
       (λ d, Bool.eqb (out_of_range (hexToByte (pair c d))) (reads_negative c d)
             && Bool.eqb (hexToByte (pair c d) =? 255) (is_f c && is_f d)
             && implb (unreadable c)
                  (Leibniz.eqb (hexToByte (pair c d)) nan)
             && negb (out_of_range (hexToByte (pair c c)))
             && implb (negb (is_hex c))
                  (Leibniz.eqb (hexToByte (pair c c)) nan))
       all_ascii)
    ltac:(vm_compute; reflexivity) c) as H.
  cbv beta in H. rewrite forallb_forall in H.
  specialize (H d (all_ascii_complete d)).
  repeat (apply andb_true_iff in H as [H ?]).
  apply Bool.eqb_prop in H.
  repeat split.
  - exact H.
  - apply Bool.eqb_prop. assumption.
  - intros Hu. rewrite Hu in *. apply Leibniz.eqb_spec. assumption.
  - apply negb_true_iff. assumption.
  - intros Hh. rewrite Hh in *. apply Leibniz.eqb_spec. assumption.
Qed.

Lemma remove_spaces_word (a : bool) (d1 d2 d3 : string) (alpha : option string) :
  digits_lit d1 = true → digits_lit d2 = true → digits_lit d3 = true →
  alpha = None ∨ alpha = Some "1" →
  remove_spaces (rgba_text a (mkGroups d1 d2 d3 alpha))
  = rgba_text a (mkGroups d1 d2 d3 alpha).
Proof.
  intros H1%digits_lit_all H2%digits_lit_all H3%digits_lit_all Halpha.
  unfold rgba_text, rgba_text_then. cbn [group1 group2 group3 group4].
  rewrite !remove_spaces_append.
  rewrite (remove_spaces_digits _ H1), (remove_spaces_digits _ H2),
    (remove_spaces_digits _ H3).
  destruct Halpha as [->| ->]; destruct a; reflexivity.
Qed.

(** X8.  [#] followed by a number of characters other than 3, 6 and 8 (none
    included) throws UnsupportedFormat with the string, and leaves the
    cache as it was. *)
Theorem hash_with_other_length_is_unsupported (h : string) (cache : bool)
    (CACHE : gmap string float) :
  cache_wf CACHE →
  String.length h ≠ 3%nat → String.length h ≠ 6%nat →
  String.length h ≠ 8%nat →
  colorLuminance (Str ("#" +:+ h)) cache CACHE
  = (Throw (UnsupportedFormat ("#" +:+ h)), CACHE).
Proof.
  intros Hwf H3%Nat.eqb_neq H6%Nat.eqb_neq H8%Nat.eqb_neq.
  apply colorLuminance_throws_hash;
    [assumption| |destruct h; reflexivity].
  change ("#" +:+ h) with (String "#" h).
  rewrite computed_hash, H3, H6, H8. reflexivity.
Qed.

(** X9.  An array is accepted exactly when it has three components, or four
    of which the last is 1, and each component is a number from 0 to 255 or
    NaN.  Its luminance is then that of the first three components. *)
Theorem array_is_accepted_iff (a : list float) (cache : bool)
    (CACHE : gmap string float) :
  let accepted :=
    (length a = 3%nat ∨ length a = 4%nat ∧ (nth 3 a nan =? 1) = true)
    ∧ Forall (λ d, in_byte_range d = true ∨ d = nan) a in
  (is_ok (fst (colorLuminance (Arr a) cache CACHE)) = true ↔ accepted)
  ∧ (accepted →
     colorLuminance (Arr a) cache CACHE
     = (Ok (Num (relative_luminance (nth 0 a nan) (nth 1 a nan)
                   (nth 2 a nan))),
        CACHE)).
Proof.
  intros accepted.
  assert (Hrange : existsb out_of_range a = false ↔
                   Forall (λ d, in_byte_range d = true ∨ d = nan) a).
  { rewrite existsb_false. split; intros H; eapply Forall_impl; try exact H;
      intros d Hd; apply out_of_range_false; exact Hd. }
  assert (Hok : accepted →
    colorLuminance_array a
    = Ok (relative_luminance (nth 0 a nan) (nth 1 a nan) (nth 2 a nan))).
  { intros [Hlen Hall]. apply Hrange in Hall.
    unfold colorLuminance_array, assertRgbColor. rewrite Hall.
    destruct Hlen as [->|[-> ->]]; reflexivity. }
  rewrite colorLuminance_Arr. cbn [fst]. split.
  - split.
    + intros H.
      assert (H' : is_ok (colorLuminance_array a) = true)
        by (destruct (colorLuminance_array a); [reflexivity|discriminate H]).
      clear H. revert H'.
      unfold colorLuminance_array, assertRgbColor.
      destruct (existsb out_of_range a) eqn:Ex;
        [rewrite !orb_true_r; discriminate|].
      rewrite !orb_false_r.
      destruct (length a <? 3)%nat eqn:L3; [discriminate|].
      destruct (4 <? length a)%nat eqn:L4; [discriminate|].
      apply Nat.ltb_ge in L3, L4. cbn [orb].
      destruct (length a =? 4)%nat eqn:E4.
      * apply Nat.eqb_eq in E4.
        destruct (nth 3 a nan =? 1) eqn:E1; [|discriminate].
        intros _. split; [right; auto|apply Hrange; reflexivity].
      * apply Nat.eqb_neq in E4. intros _.
        split; [left; lia|apply Hrange; reflexivity].
    + intros Hacc. rewrite (Hok Hacc). reflexivity.
  - intros Hacc. rewrite (Hok Hacc). reflexivity.
Qed.

(** X10.  In a string without [#] in front, spaces count for nothing: two
    strings that are equal once their spaces are removed have the same
    luminance, or raise errors of the same class with the same alpha.
    This holds when the cache is not read, and when it is read for strings
    neither of which is the name of a member that [CACHE] inherits. *)
Theorem spaces_are_ignored (c1 c2 : string) (cache : bool)
    (CACHE : gmap string float) :
  cache_wf CACHE →
  String.prefix "#" c1 = false → String.prefix "#" c2 = false →
  remove_spaces c1 = remove_spaces c2 →
  cache && (inherited c1 || inherited c2) = false →
  same_outcome (fst (colorLuminance (Str c1) cache CACHE))
               (fst (colorLuminance (Str c2) cache CACHE)).
Proof.
  intros Hwf H1 H2 Heq Hplain. rewrite !colorLuminance_outcome by assumption.
  unfold returned.
  assert (Hi : cache && inherited c1 = false ∧ cache && inherited c2 = false).
  { destruct cache; [|auto]. apply orb_false_iff in Hplain. exact Hplain. }
  destruct Hi as [-> ->].
  rewrite (computed_plain c1 H1), (computed_plain c2 H2), Heq.
  destruct (RGBA_match (remove_spaces c2)) as [g|]; [|exact I].
  destruct (translucent g); [reflexivity|].
  destruct (colorLuminance_array _) as [v|[]]; cbn; auto.
Qed.

(** X11.  The letter [a] and an alpha of 1 are both optional, and neither
    changes the outcome: [rgb(r,g,b)], [rgba(r,g,b)], [rgb(r,g,b,1)] and
    [rgba(r,g,b,1)] all give what the array of the three numbers gives, be
    it a luminance or the error of the range check. *)
Theorem optional_a_and_alpha_one (d1 d2 d3 : string) (a : bool)
    (alpha : option string) (cache : bool) (CACHE : gmap string float) :
  cache_wf CACHE →
  digits_lit d1 = true → digits_lit d2 = true → digits_lit d3 = true →
  alpha = None ∨ alpha = Some "1" →
  fst (colorLuminance (Str (rgba_text a (mkGroups d1 d2 d3 alpha)))
         cache CACHE)
  = fst (colorLuminance (Arr [Number d1; Number d2; Number d3]) cache CACHE).
Proof.
  intros Hwf H1 H2 H3 Halpha.
  pose proof (remove_spaces_word a d1 d2 d3 alpha H1 H2 H3 Halpha) as Hrs.
  rewrite colorLuminance_value;
    [|assumption|exact (word_not_inherited _ a _ "" Hrs)].
  rewrite colorLuminance_Arr. cbn [fst]. f_equal.
  rewrite (computed_functional _ a (mkGroups d1 d2 d3 alpha) "").
  - unfold translucent. cbn [group1 group2 group3 group4].
    destruct Halpha as [->| ->]; reflexivity.
  - destruct a; reflexivity.
  - exact Hrs.
  - unfold groups_lit. cbn [group1 group2 group3 group4].
    rewrite H1, H2, H3. destruct Halpha as [->| ->]; reflexivity.
Qed.

(** X12.  [#] and three characters is never rejected, whatever the
    characters: the call returns a value and stores it, and the value is
    NaN as soon as one of the characters is not a digit of radix 16. *)
Theorem three_characters_are_never_rejected (c1 c2 c3 : ascii) (cache : bool)
    (CACHE : gmap string float) :
  cache_wf CACHE →
  ∃ v : float,
    colorLuminance (Str (hex3 c1 c2 c3)) cache CACHE
    = (Ok (Num v), <[hex3 c1 c2 c3 := v]> CACHE)
    ∧ (is_hex c1 && is_hex c2 && is_hex c3 = false → v = nan).
Proof.
  intros Hwf.
  destruct (pair_facts c1 c1) as (_ & _ & _ & R1 & N1).
  destruct (pair_facts c2 c2) as (_ & _ & _ & R2 & N2).
  destruct (pair_facts c3 c3) as (_ & _ & _ & R3 & N3).
  eexists. split.
  - rewrite (colorLuminance_run _ _ _ Hwf).
    unfold returned, cache_after, luminance_value.
    rewrite (hash_not_inherited (hex3 c1 c2 c3)) by reflexivity.
    rewrite andb_false_r.
    rewrite computed_hex3, colorLuminance_array_3, R1, R2, R3. reflexivity.
  - intros H. apply relative_luminance_nan.
    apply andb_false_iff in H as [H|H]; [|auto].
    apply andb_false_iff in H as [H|H]; auto.
Qed.

(** X13.  [#] and six characters is rejected exactly when one of the three
    pairs is a minus sign and a digit of radix 16 other than 0, with
    UnsupportedFormat and the three numbers in brackets.  Otherwise the
    call returns a value and stores it, and the value is NaN as soon as one
    pair starts with a character no number can start with. *)
Theorem six_characters_rejected_iff_negative (c1 c2 c3 c4 c5 c6 : ascii)
    (cache : bool) (CACHE : gmap string float) :
  cache_wf CACHE →
  let color := hex6 c1 c2 c3 c4 c5 c6 in
  let rgb := [hexToByte (pair c1 c2); hexToByte (pair c3 c4);
              hexToByte (pair c5 c6)] in
  if reads_negative c1 c2 || reads_negative c3 c4 || reads_negative c5 c6
  then colorLuminance (Str color) cache CACHE
       = (Throw (UnsupportedFormat (bracketed rgb)), CACHE)
  else ∃ v : float,
         colorLuminance (Str color) cache CACHE
         = (Ok (Num v), <[color := v]> CACHE)
         ∧ (unreadable c1 || unreadable c3 || unreadable c5 = true →
            v = nan).
Proof.
  intros Hwf color rgb.
  destruct (pair_facts c1 c2) as (R1 & _ & N1 & _).
  destruct (pair_facts c3 c4) as (R2 & _ & N2 & _).
  destruct (pair_facts c5 c6) as (R3 & _ & N3 & _).
  rewrite (colorLuminance_run _ _ _ Hwf).
  unfold returned, cache_after, luminance_value. subst color rgb.
  rewrite (hash_not_inherited (hex6 c1 c2 c3 c4 c5 c6)) by reflexivity.
  rewrite andb_false_r.
  rewrite computed_hex6, colorLuminance_array_3, R1, R2, R3.
  destruct (reads_negative c1 c2 || reads_negative c3 c4
            || reads_negative c5 c6); [reflexivity|].
  eexists. split; [reflexivity|].
  intros H. apply relative_luminance_nan.
  apply orb_true_iff in H as [H|H]; [|auto].
  apply orb_true_iff in H as [H|H]; auto.
Qed.

(** X14.  [#] and eight characters is taken as opaque exactly when the last
    two are the letter [f], in either case each: it then has the outcome of
    its first six characters; otherwise it throws NeedsAlphaBlending with
    what the last two read as. *)
Theorem eight_characters_opaque_iff_ff (c1 c2 c3 c4 c5 c6 c7 c8 : ascii)
    (cache : bool) (CACHE : gmap string float) :
  cache_wf CACHE →
  if is_f c7 && is_f c8
  then fst (colorLuminance (Str (hex8 c1 c2 c3 c4 c5 c6 c7 c8)) cache CACHE)
       = fst (colorLuminance (Str (hex6 c1 c2 c3 c4 c5 c6)) cache CACHE)
  else colorLuminance (Str (hex8 c1 c2 c3 c4 c5 c6 c7 c8)) cache CACHE
       = (Throw (NeedsAlphaBlending (hex8 c1 c2 c3 c4 c5 c6 c7 c8)
                   (hexToByte (pair c7 c8))), CACHE).
Proof.
  intros Hwf. destruct (pair_facts c7 c8) as (_ & H255 & _).
  destruct (is_f c7 && is_f c8).
  - rewrite !colorLuminance_value
      by (try assumption; apply hash_not_inherited; reflexivity).
    rewrite computed_hex8, computed_hex6, H255. reflexivity.
  - apply colorLuminance_throws_hash; [assumption| |reflexivity].
    rewrite computed_hex8, H255. reflexivity.
Qed.

Lemma byte_threshold (z : Z) :
  (0 <= z < 256)%Z → (0.03928 <? Z2number z / 255) = (10 <? z)%Z.
Proof.
  intros Hz. apply Bool.eqb_prop.
  exact (byte_forallb
           (λ z, Bool.eqb (0.03928 <? Z2number z / 255) (10 <? z)%Z)
           ltac:(vm_compute; reflexivity) z Hz).
Qed.

(** X15.  Of the components 0 to 255, those up to 10 are below the
    threshold 0.03928 once divided by 255 and are divided by 12.92; those
    from 11 on are raised to the power 2.4. *)
Theorem components_up_to_ten_are_linear (r g b : Z) (cache : bool)
    (CACHE : gmap string float) :
  (0 <= r < 256)%Z → (0 <= g < 256)%Z → (0 <= b < 256)%Z →
  let lin z :=
    if (z <=? 10)%Z then Z2number z / 255 / 12.92
    else pow ((Z2number z / 255 + 0.055) / 1.055) 2.4 in
  colorLuminance (Arr [Z2number r; Z2number g; Z2number b]) cache CACHE
  = (Ok (Num (0.2126 * lin r + 0.7152 * lin g + 0.0722 * lin b)), CACHE).
Proof.
  intros Hr Hg Hb lin.
  destruct (byte_number r Hr) as (Rr & _). destruct (byte_number g Hg) as (Rg & _).
  destruct (byte_number b Hb) as (Rb & _).
  rewrite colorLuminance_Arr.
  rewrite colorLuminance_array_3, Rr, Rg, Rb. cbn [orb number].
  unfold relative_luminance, linearize, lin.
  rewrite !byte_threshold by assumption.
  rewrite !Z.ltb_antisym.
  destruct (r <=? 10)%Z, (g <=? 10)%Z, (b <=? 10)%Z; reflexivity.
Qed.

(** ** Properties of the hooks *)

Lemma returned_hash (color : string) (cache : bool) :
  String.prefix "#" color = true →
  returned (Str color) cache = number (computed color).
Proof.
  intros H. unfold returned. rewrite (hash_not_inherited _ H), andb_false_r.
  reflexivity.
Qed.

Lemma returned_black (cache : bool) :
  returned (Str "#000000") cache = Ok (Num 0).
Proof.
  rewrite returned_hash by reflexivity.
  change "#000000" with (hex6 "0" "0" "0" "0" "0" "0").
  rewrite computed_hex6, colorLuminance_array_3.
  vm_compute. reflexivity.
Qed.

Lemma returned_white (cache : bool) :
  returned (Str "#ffffff") cache = Ok (Num (relative_luminance 255 255 255)).
Proof.
  rewrite returned_hash by reflexivity.
  change "#ffffff" with (hex6 "f" "f" "f" "f" "f" "f").
  rewrite computed_hex6, colorLuminance_array_3.
  change (hexToByte (pair "f" "f")) with 255%float. reflexivity.
Qed.

Lemma colorLuminance_fst (color : OpaqueColor) (cache : bool)
    (CACHE : gmap string float) :
  cache_wf CACHE →
  fst (colorLuminance color cache CACHE) = returned color cache.
Proof. intros Hwf. rewrite (colorLuminance_run _ _ _ Hwf). reflexivity. Qed.

(** X16.  In a render that computes, an error of [colorLuminance] on the
    colour comes out of every hook unchanged, and the cache stays as it
    was: no hook catches anything. *)
Theorem hooks_raise_what_the_call_raises (color : OpaqueColor) (e : Error)
    (CACHE : gmap string float) :
  memo_computes → reachable CACHE →
  fst (colorLuminance color true CACHE) = Throw e →
  useColorLuminance color CACHE = (Throw e, CACHE)
  ∧ (∀ threshold, useIsColorDark color threshold CACHE = (Throw e, CACHE))
  ∧ (∀ background, useContrast color background CACHE = (Throw e, CACHE))
  ∧ (∀ background threshold,
       useHasContrastOnLight color background threshold CACHE
       = (Throw e, CACHE))
  ∧ (∀ background threshold,
       useHasContrastOnDark color background threshold CACHE
       = (Throw e, CACHE)).
Proof.
  intros Hmemo Hwf%reachable_wf He.
  rewrite (colorLuminance_fst _ _ _ Hwf) in He.
  assert (H1 : colorLuminance color true CACHE = (Throw e, CACHE)).
  { rewrite (colorLuminance_run _ _ _ Hwf), He.
    rewrite (cache_after_throw _ _ _ (returned_throw _ _ _ He)). reflexivity. }
  assert (H2 : ∀ background, contrast color background CACHE = (Throw e, CACHE)).
  { intros background. rewrite (contrast_run _ _ _ Hwf), He. reflexivity. }
  unfold useHasContrastOnLight, useHasContrastOnDark, useIsColorDark,
    useContrast, useColorLuminance, bind.
  repeat split; intros; rewrite Hmemo, ?H1, ?H2; reflexivity.
Qed.

(** X17.  In a render that computes, a colour whose luminance is NaN (such
    as [#ggg]) fails every check: it is not dark, its contrast with any
    accepted background is NaN in both orders, and it has contrast on
    neither light nor dark, whatever the thresholds, with the default
    backgrounds as well. *)
Theorem NaN_luminance_fails_every_check (color : OpaqueColor)
    (CACHE : gmap string float) :
  memo_computes → reachable CACHE →
  fst (colorLuminance color true CACHE) = Ok (Num nan) →
  (∀ threshold, fst (useIsColorDark color threshold CACHE) = Ok false)
  ∧ (∀ background,
       is_ok (fst (colorLuminance background true CACHE)) = true →
       fst (useContrast color background CACHE) = Ok nan
       ∧ fst (useContrast background color CACHE) = Ok nan)
  ∧ (∀ background threshold,
       (∀ b, background = Some b →
             is_ok (fst (colorLuminance b true CACHE)) = true) →
       fst (useHasContrastOnLight color background threshold CACHE) = Ok false
       ∧ fst (useHasContrastOnDark color background threshold CACHE)
         = Ok false).
Proof.
  intros Hmemo Hwf%reachable_wf Hnan.
  rewrite (colorLuminance_fst _ _ _ Hwf) in Hnan.
  assert (Hc : ∀ background,
    is_ok (returned background true) = true →
    fst (contrast color background CACHE) = Ok nan
    ∧ fst (contrast background color CACHE) = Ok nan).
  { intros background Hb. rewrite !(contrast_run _ _ _ Hwf), Hnan.
    destruct (returned background true) as [lb|]; [|discriminate].
    cbn [fst]. destruct (ratio_nan lb) as [-> ->]. auto. }
  split; [|split].
  - intros threshold. unfold useIsColorDark, useColorLuminance, bind.
    rewrite Hmemo, (colorLuminance_run _ _ _ Hwf), Hnan. cbn [fst ret].
    unfold less_than. cbn [ToNumber]. rewrite ltb_nan_l. reflexivity.
  - intros background Hb. rewrite (colorLuminance_fst _ _ _ Hwf) in Hb.
    unfold useContrast. rewrite !Hmemo. apply Hc, Hb.
  - intros background threshold Hb.
    assert (Hlight : is_ok (returned (default (Str "#ffffff") background) true)
                     = true).
    { destruct background as [b|]; cbn [default id].
      - rewrite <- (colorLuminance_fst b true CACHE Hwf). apply Hb. reflexivity.
      - rewrite returned_white. reflexivity. }
    assert (Hdark : is_ok (returned (default (Str "#000000") background) true)
                    = true).
    { destruct background as [b|]; cbn [default id].
      - rewrite <- (colorLuminance_fst b true CACHE Hwf). apply Hb. reflexivity.
      - rewrite returned_black. reflexivity. }
    unfold useHasContrastOnLight, useHasContrastOnDark, useContrast, bind.
    rewrite !Hmemo.
    destruct (Hc _ Hlight) as [H1 _]. destruct (Hc _ Hdark) as [H2 _].
    destruct (contrast color (default (Str "#ffffff") background) CACHE)
      as [r1 C1].
    destruct (contrast color (default (Str "#000000") background) CACHE)
      as [r2 C2].
    cbn [fst] in H1, H2. subst r1 r2. cbn [fst ret].
    rewrite !ltb_nan_r. auto.
Qed.

(** X18.  In a render that computes, [useHasContrastOnDark] without a
    background compares the threshold with [(l + 0.05) / 0.05], where [l] is
    the luminance of the colour: the default background has luminance 0 and
    its text sorts first. *)
Theorem has_contrast_on_dark_by_default (color : OpaqueColor) (l : float)
    (threshold : option float) (CACHE : gmap string float) :
  memo_computes → reachable CACHE →
  fst (colorLuminance color true CACHE) = Ok (Num l) →
  (l <? 0) = false →
  fst (useHasContrastOnDark color None threshold CACHE)
  = Ok (default AA_THRESHOLD_CONTRAST threshold <? (l + 0.05) / 0.05).
Proof.
  intros Hmemo Hwf%reachable_wf Hl Hpos.
  rewrite (colorLuminance_fst _ _ _ Hwf) in Hl.
  unfold useHasContrastOnDark, useContrast, bind. rewrite Hmemo.
  cbn [default]. rewrite (contrast_run _ _ _ Hwf), Hl, returned_black.
  cbn [fst ret]. destruct (ratio_of_zero l Hpos) as [H _].
  unfold ratio_of in H. rewrite H. reflexivity.
Qed.

(** ** The names of the members that [CACHE] inherits *)

(** The text of a member, with the text of a number after it, is no
    number. *)
Lemma member_text_is_no_number (key : string) :
  inherited key = true →
  Number (Member_toString key +:+ Number_toString 0.05) = nan.
Proof.
  unfold inherited. intros (k & Hin & Hk)%existsb_exists.
  apply String.eqb_eq in Hk. subst k.
  repeat (destruct Hin as [<-|Hin]; [vm_compute; reflexivity|]).
  destruct Hin.
Qed.

Lemma ratio_member (key : string) (v : Value) :
  inherited key = true →
  ratio (Member key) v = nan ∧ ratio v (Member key) = nan.
Proof.
  intros Hn%member_text_is_no_number. unfold ratio. cbn [sort sort_insert].
  split; destruct (SortCompare _ _); cbn [nth plus]; unfold divide;
    cbn [ToNumber]; rewrite Hn, ?nan_div_l, ?nan_div_r; reflexivity.
Qed.

(** X20.  The name of a member that [CACHE] inherits from [Object.prototype]
    (such as [constructor] or [toString]) is no colour: without the cache
    the call throws UnsupportedFormat.  With the cache it throws nothing
    and returns that member, which is no number; the cache is left as it
    was, and [contrast] with any accepted colour is then NaN, in both
    orders. *)
Theorem inherited_name_returns_the_member (key : string)
    (background : OpaqueColor) (CACHE : gmap string float) :
  reachable CACHE → inherited key = true →
  colorLuminance (Str key) true CACHE = (Ok (Member key), CACHE)
  ∧ colorLuminance (Str key) false CACHE
    = (Throw (UnsupportedFormat key), CACHE)
  ∧ (is_ok (fst (colorLuminance background true CACHE)) = true →
     fst (contrast (Str key) background CACHE) = Ok nan
     ∧ fst (contrast background (Str key) CACHE) = Ok nan).
Proof.
  intros Hwf%reachable_wf Hi. split; [|split].
  - apply colorLuminance_member; assumption.
  - apply colorLuminance_throws; [assumption| |reflexivity].
    apply inherited_computed. exact Hi.
  - rewrite (colorLuminance_fst _ _ _ Hwf), !(contrast_run _ _ _ Hwf).
    assert (Hkey : returned (Str key) true = Ok (Member key))
      by (unfold returned; rewrite Hi; reflexivity).
    rewrite Hkey.
    destruct (returned background true) as [v|]; [|discriminate].
    intros _. cbn [fst]. destruct (ratio_member key v Hi) as [-> ->]. auto.
Qed.

End Source.

(** ** The earlier version *)

Lemma legacy_pair_facts (c d : ascii) :
  (Legacy.hexToByte (pair c d) =? 255) = false
  ∧ out_of_range (Legacy.hexToByte (pair c c)) = false
  ∧ (is_hex c = false → Legacy.hexToByte (pair c c) = nan).
Proof.
  pose proof (ascii_forallb
    (λ c, forallb
       (λ d, negb (Legacy.hexToByte (pair c d) =? 255)
             && negb (out_of_range (Legacy.hexToByte (pair c c)))
             && implb (negb (is_hex c))
                  (Leibniz.eqb (Legacy.hexToByte (pair c c)) nan))
       all_ascii)
    ltac:(vm_compute; reflexivity) c) as H.
  cbv beta in H. rewrite forallb_forall in H.
  specialize (H d (all_ascii_complete d)).
  repeat (apply andb_true_iff in H as [H ?]).
  repeat split.
  - apply negb_true_iff. assumption.
  - apply negb_true_iff. assumption.
  - intros Hh. rewrite Hh in *. apply Leibniz.eqb_spec. assumption.
Qed.

Lemma legacy_three (c1 c2 c3 : ascii) (perceived : bool) :
  Legacy.colorLuminance (Str (hex3 c1 c2 c3)) perceived
  = Legacy.Value
      (Legacy.componentsToLuminance
         (Legacy.hexToByte (pair c1 c1) / 255)
         (Legacy.hexToByte (pair c2 c2) / 255)
         (Legacy.hexToByte (pair c3 c3) / 255) perceived).
Proof.
  destruct (legacy_pair_facts c1 c1) as (_ & R1 & _).
  destruct (legacy_pair_facts c2 c2) as (_ & R2 & _).
  destruct (legacy_pair_facts c3 c3) as (_ & R3 & _).
  change (Legacy.colorLuminance (Str (hex3 c1 c2 c3)) perceived)
    with (Legacy.colorLuminance_array
            [Legacy.hexToByte (pair c1 c1); Legacy.hexToByte (pair c2 c2);
             Legacy.hexToByte (pair c3 c3)] perceived).
  unfold Legacy.colorLuminance_array, Legacy.assertRgbColor.
  cbn [length existsb Nat.ltb Nat.leb Nat.eqb orb andb nth].
  rewrite R1, R2, R3. reflexivity.
Qed.

Lemma legacy_nan_luminance (r g b : float) (perceived : bool) :
  r = nan ∨ g = nan ∨ b = nan →
  Legacy.componentsToLuminance (r / 255) (g / 255) (b / 255) perceived = nan.
Proof.
  unfold Legacy.componentsToLuminance.
  intros [->|[->| ->]]; destruct perceived;
    rewrite nan_div_l, nan_mul_r, ?nan_add_l, ?nan_add_r;
    rewrite ?nan_add_l; reflexivity.
Qed.

(** X19.  In the earlier version [#] and eight characters is always
    rejected, the last two being [ff] or not: [hexToByte] has already
    divided by 255, so that the alpha it returns is at most 1 and is never
    255. *)
Theorem legacy_eight_characters_are_always_rejected
    (c1 c2 c3 c4 c5 c6 c7 c8 : ascii) (perceived : bool) :
  Legacy.colorLuminance (Str (hex8 c1 c2 c3 c4 c5 c6 c7 c8)) perceived
  = Legacy.Thrown
      (Legacy.NotPremultiplied (hex8 c1 c2 c3 c4 c5 c6 c7 c8)
         (Legacy.hexToByte (pair c7 c8))).
Proof.
  destruct (legacy_pair_facts c7 c8) as (H255 & _).
  change (Legacy.colorLuminance (Str (hex8 c1 c2 c3 c4 c5 c6 c7 c8)) perceived)
    with (if true && negb (Legacy.hexToByte (pair c7 c8) =? 255)
          then Legacy.Thrown
                 (Legacy.NotPremultiplied (hex8 c1 c2 c3 c4 c5 c6 c7 c8)
                    (Legacy.hexToByte (pair c7 c8)))
          else Legacy.colorLuminance_array
                 [Legacy.hexToByte (pair c1 c2); Legacy.hexToByte (pair c3 c4);
                  Legacy.hexToByte (pair c5 c6)] false).
  rewrite H255. reflexivity.
Qed.

(** X21.  In the earlier version [#] and three characters is never
    rejected, and each component is divided by 255 twice, once in
    [hexToByte] and once before the weights: with three digits of radix 16
    the luminance is below the default threshold, white included, and
    otherwise it is NaN. *)
Theorem legacy_three_characters_are_dark (c1 c2 c3 : ascii)
    (perceived : bool) :
  ∃ v, Legacy.colorLuminance (Str (hex3 c1 c2 c3)) perceived = Legacy.Value v
       ∧ v = Legacy.componentsToLuminance
               (parseInt16 (pair c1 c1) / 255 / 255)
               (parseInt16 (pair c2 c2) / 255 / 255)
               (parseInt16 (pair c3 c3) / 255 / 255) perceived
       ∧ if is_hex c1 && is_hex c2 && is_hex c3
         then (v <? Legacy.DEFAULT_THRESHOLD) = true
         else v = nan.
Proof.
  eexists. split; [apply legacy_three|]. split; [reflexivity|].
  destruct (is_hex c1 && is_hex c2 && is_hex c3) eqn:E.
  - apply andb_true_iff in E as [E H3].
    apply andb_true_iff in E as [H1 H2].
    pose (hexs := List.filter is_hex all_ascii).
    assert (Hin : ∀ c, is_hex c = true → In c hexs).
    { intros c Hc. apply filter_In. split; [apply all_ascii_complete|exact Hc]. }
    assert (H : forallb (λ a1, forallb (λ a2, forallb (λ a3,
        forallb (λ p,
          Legacy.componentsToLuminance
            (Legacy.hexToByte (pair a1 a1) / 255)
            (Legacy.hexToByte (pair a2 a2) / 255)
            (Legacy.hexToByte (pair a3 a3) / 255) p
          <? Legacy.DEFAULT_THRESHOLD) [true; false]) hexs) hexs) hexs = true)
      by (vm_compute; reflexivity).
    rewrite forallb_forall in H. specialize (H c1 (Hin c1 H1)).
    rewrite forallb_forall in H. specialize (H c2 (Hin c2 H2)).
    rewrite forallb_forall in H. specialize (H c3 (Hin c3 H3)).
    rewrite forallb_forall in H. apply H. destruct perceived; cbn; auto.
  - destruct (legacy_pair_facts c1 c1) as (_ & _ & N1).
    destruct (legacy_pair_facts c2 c2) as (_ & _ & N2).
    destruct (legacy_pair_facts c3 c3) as (_ & _ & N3).
    apply legacy_nan_luminance.
    apply andb_false_iff in E as [E|E]; [|auto].
    apply andb_false_iff in E as [E|E]; auto.
Qed.

(** ** The model on the cases of the test suite *)

Example builtins_on_samples :
  List.map Number_toString
    [1; 0.5; 0.2126; 1e21; 1e-7; 5e-324; 0.000001; 255; 1e23; -0; -1.5; nan]
  = ["1"; "0.5"; "0.2126"; "1e+21"; "1e-7"; "5e-324"; "0.000001"; "255";
     "1e+23"; "0"; "-1.5"; "NaN"]
  ∧ List.map Number ["0"; "255"; "007"; ".4"; "0.4"; "."; "0."; "1"]
    = [0; 255; 7; 0.4; 0.4; nan; 0; 1]
  ∧ List.map parseInt16 ["ff"; "FF"; "A5"; "zz"; "fz"; "-0"; " f"; "0x"]
    = [255; 255; 165; nan; 15; -0; 15; nan]
  ∧ RGBA_match (remove_spaces "rgba(32, 64, 87, 1)")
    = Some (mkGroups "32" "64" "87" (Some "1"))
  ∧ RGBA_match (remove_spaces "hsla(0, 0, 0, 1)") = None.
Proof. vm_compute. repeat split; reflexivity. Qed.

Example luminance_of_test_colors :
  let luminance_of color := fst (colorLuminance pow_series (Str color) true ∅) in
  List.map luminance_of
    ["#fff"; "#000"; "#f00"; "#0f0"; "#00f"; "#ffffff"; "#ff0000ff";
     "rgb(255, 255, 255)"; "rgb(  0, 255,   0)"; "rgb(  0,   0, 255, 1)"]
  = List.map (λ v, Ok (Num v))
      [1; 0; 0.2126; 0.7152; 0.0722; 1; 0.2126; 1; 0.7152; 0.0722].
Proof. vm_compute. reflexivity. Qed.

Example errors_of_test_colors :
  let luminance_of color := fst (colorLuminance pow_series (Str color) true ∅) in
  List.map luminance_of
    ["#ffffff66"; "rgba(255, 255, 255, .4)"; "red"; "hsla(0, 0, 0, 1)"]
  = [Throw (NeedsAlphaBlending "#ffffff66" 102);
     Throw (NeedsAlphaBlending "rgba(255, 255, 255, .4)" 0.4);
     Throw (UnsupportedFormat "red");
     Throw (UnsupportedFormat "hsla(0, 0, 0, 1)")].
Proof. vm_compute. reflexivity. Qed.

Example contrast_of_test_colors :
  let contrast_of color background :=
    fst (contrast pow_series (Str color) (Str background) ∅) in
  contrast_of "#fff" "#000" = Ok 21 ∧ contrast_of "#000" "#fff" = Ok 21
  ∧ contrast_of "#fff" "#fff" = Ok 1 ∧ contrast_of "#000" "#000" = Ok 1
  ∧ contrast_of "#f00" "#000" = Ok 5.252
  ∧ contrast_of "#00f" "#000" = Ok 2.444.
Proof. vm_compute. repeat split; reflexivity. Qed.

(** ** Instances *)

Lemma pow_series_one : pow_series 1 2.4 = 1%float.
Proof. vm_compute. reflexivity. Qed.

(** [luminance_is_weighted_sum] at the colour [#AA5522]. *)
Lemma luminance_is_weighted_sum_witness :
  colorLuminance pow_series (Arr [170; 85; 34]) true ∅ =
  (Ok (Num (0.2126 * linearize pow_series (170 / 255)
            + 0.7152 * linearize pow_series (85 / 255)
            + 0.0722 * linearize pow_series (34 / 255))), ∅).
Proof. apply (luminance_is_weighted_sum pow_series); reflexivity. Defined.

(** [translucent_needs_alpha_blending] at the three translucent colours of
    the test suite, with the empty cache. *)
Lemma translucent_needs_alpha_blending_witness :
  colorLuminance pow_series (Str "#ffffff66") true ∅ =
  (Throw (NeedsAlphaBlending "#ffffff66" 102), ∅)
  ∧ colorLuminance pow_series (Str "rgba(255, 255, 255, .4)") true ∅ =
    (Throw (NeedsAlphaBlending "rgba(255, 255, 255, .4)" 0.4), ∅)
  ∧ colorLuminance pow_series (Arr [255; 255; 255; 0.4]) true ∅ =
    (Throw (NeedsAlphaBlending "[255, 255, 255, 0.4]" 0.4), ∅).
Proof.
  destruct (translucent_needs_alpha_blending pow_series true ∅
              (cache_wf_empty pow_series)) as (Hhex & Hfun & Harr).
  split; [|split].
  - exact (Hhex "ffffff66" eq_refl eq_refl).
  - exact (Hfun "rgba(255, 255, 255, .4)" true
             (mkGroups "255" "255" "255" (Some ".4")) ".4"
             eq_refl eq_refl eq_refl eq_refl ltac:(discriminate)).
  - exact (Harr 255 255 255 0.4 eq_refl eq_refl eq_refl eq_refl eq_refl).
Defined.



(** The pattern is searched for, not matched against the whole string:
    text around a match is ignored. *)
Example match_is_searched_anywhere :
  fst (colorLuminance pow_series (Str "xrgb(1,2,3)y") true ∅)
  = fst (colorLuminance pow_series (Str "rgb(1,2,3)") true ∅)
  ∧ is_ok (fst (colorLuminance pow_series (Str "xrgb(1,2,3)y") true ∅)) = true.
Proof. vm_compute. split; reflexivity. Qed.

(** [encodings_agree] at the colour [#AA5522]. *)
Lemma encodings_agree_witness :
  let luminance color := fst (colorLuminance pow_series color true ∅) in
  let array := luminance (Arr [170; 85; 34]) in
  array = Ok (Num (relative_luminance pow_series 170 85 34))
  ∧ luminance (Str "#AA5522") = array
  ∧ luminance (Str "#AA5522FF") = array
  ∧ luminance (Str "#AA5522ff") = array
  ∧ luminance (Str "rgb(170,85,34)") = array
  ∧ ("A"%char = "A"%char → "5"%char = "5"%char → "2"%char = "2"%char →
     luminance (Str "#A52") = array).
Proof.
  exact (encodings_agree pow_series "A" "A" "5" "5" "2" "2" true ∅
           (cache_wf_empty pow_series) eq_refl).
Defined.

(** [black_and_white] with the sample exponentiation. *)
Lemma black_and_white_witness :
  colorLuminance pow_series (Arr [0; 0; 0]) true ∅ = (Ok (Num 0), ∅) ∧
  colorLuminance pow_series (Arr [255; 255; 255]) true ∅ = (Ok (Num 1), ∅).
Proof. exact (black_and_white pow_series true ∅ pow_series_one). Defined.

(** The first call on [#000] stores the luminance 0. *)
Lemma first_black_call :
  colorLuminance pow_series (Str "#000") true ∅
  = (Ok (Num 0), {["#000" := 0]}).
Proof. vm_compute. reflexivity. Qed.

(** [cache_discipline] at that first call. *)
Lemma cache_discipline_witness :
  cache_wf pow_series ∅ ∧ cache_wf pow_series {["#000" := 0]}
  ∧ (∅ : gmap string float) ⊆ {["#000" := 0]}
  ∧ ({["#000" := 0]} : gmap string float) = <["#000" := 0]> ∅
  ∧ (∀ s v, Str "#000" = Str s → Ok (Num 0) = Ok v →
            read s {["#000" := 0]} = v)
  ∧ (∀ key, ({["#000" := 0]} : gmap string float) !! key
            ≠ (∅ : gmap string float) !! key →
       (∅ : gmap string float) !! key = None ∧ Str "#000" = Str key ∧
       ∃ v : float, Ok (Num 0) = Ok (Num v)
            ∧ ({["#000" := 0]} : gmap string float) !! key = Some v)
  ∧ (∀ background r2 CACHE2,
       contrast pow_series (Str "#000") background ∅ = (r2, CACHE2) →
       cache_wf pow_series CACHE2 ∧ ∅ ⊆ CACHE2).
Proof.
  exact (cache_discipline pow_series (Str "#000") true ∅ {["#000" := 0]}
           (Ok (Num 0)) (reachable_start pow_series) first_black_call).
Defined.



(** ** The further properties on sample colours *)

Lemma first_render_computes : memo_computes useMemo_first_render.
Proof. intros A f deps. reflexivity. Qed.

(** [repeated_call_is_stable]: [#000] a second time, without the cache. *)
Lemma repeated_call_is_stable_witness :
  colorLuminance pow_series (Str "#000") false {["#000" := 0]}
  = (Ok (Num 0), {["#000" := 0]}).
Proof.
  exact (repeated_call_is_stable pow_series (Str "#000") true false ∅
           {["#000" := 0]} (Ok (Num 0)) (reachable_start pow_series)
           (or_intror eq_refl) first_black_call).
Defined.

(** [value_does_not_depend_on_cache]: before and after a call on [#000]. *)
Lemma value_does_not_depend_on_cache_witness :
  let CACHE2 := snd (colorLuminance pow_series (Str "#000") true ∅) in
  fst (colorLuminance pow_series (Str "#000") true ∅)
  = fst (colorLuminance pow_series (Str "#000") true CACHE2)
  ∧ (plain (Str "#000") = true →
     fst (colorLuminance pow_series (Str "#000") true ∅)
     = fst (colorLuminance pow_series (Str "#000") false CACHE2))
  ∧ fst (contrast pow_series (Str "#000") (Str "#fff") ∅)
    = fst (contrast pow_series (Str "#000") (Str "#fff") CACHE2).
Proof.
  exact (value_does_not_depend_on_cache pow_series (Str "#000") (Str "#fff")
           true false ∅ _ (reachable_start pow_series)
           (reachable_colorLuminance pow_series (Str "#000") true ∅
              (reachable_start pow_series))).
Defined.

(** [call_order_does_not_matter]: [#000] and [#fff] from the empty cache. *)
Lemma call_order_does_not_matter_witness :
  snd (colorLuminance pow_series (Str "#fff") true
         (snd (colorLuminance pow_series (Str "#000") true ∅)))
  = snd (colorLuminance pow_series (Str "#000") true
           (snd (colorLuminance pow_series (Str "#fff") true ∅))).
Proof.
  exact (call_order_does_not_matter pow_series (Str "#000") (Str "#fff")
           true true ∅ (reachable_start pow_series)).
Defined.

(** [contrast_raises_the_first_failure]: a keyword against black. *)
Lemma contrast_raises_the_first_failure_witness :
  let first := colorLuminance pow_series (Str "red") true ∅ in
  let second := colorLuminance pow_series (Str "#000") true ∅ in
  is_ok (fst (contrast pow_series (Str "red") (Str "#000") ∅))
  = is_ok (fst first) && is_ok (fst second)
  ∧ (∀ e, fst first = Throw e →
       contrast pow_series (Str "red") (Str "#000") ∅ = (Throw e, ∅))
  ∧ (∀ e, is_ok (fst first) = true → fst second = Throw e →
       contrast pow_series (Str "red") (Str "#000") ∅ = (Throw e, snd first)).
Proof.
  exact (contrast_raises_the_first_failure pow_series (Str "red")
           (Str "#000") ∅ (reachable_start pow_series)).
Defined.

(** [equal_luminances_have_contrast_one]: two notations of black. *)
Lemma equal_luminances_have_contrast_one_witness :
  fst (contrast pow_series (Str "#000") (Str "rgb(0, 0, 0)") ∅) = Ok 1.
Proof.
  apply (equal_luminances_have_contrast_one pow_series (Str "#000")
           (Str "rgb(0, 0, 0)") 0 ∅ (reachable_start pow_series));
    vm_compute; reflexivity.
Defined.

(** [contrast_against_black]: white against black is 21. *)
Lemma contrast_against_black_witness :
  fst (contrast pow_series (Str "#fff") (Str "#000") ∅)
  = Ok ((1 + 0.05) / 0.05)
  ∧ fst (contrast pow_series (Str "#000") (Str "#fff") ∅)
    = Ok ((1 + 0.05) / 0.05).
Proof.
  apply (contrast_against_black pow_series (Str "#fff") (Str "#000") 1 ∅
           (reachable_start pow_series));
    vm_compute; reflexivity.
Defined.

(** [contrast_is_symmetric]: white and black. *)
Lemma contrast_is_symmetric_witness :
  contrast pow_series (Str "#fff") (Str "#000") ∅
  = contrast pow_series (Str "#000") (Str "#fff") ∅.
Proof.
  apply (contrast_is_symmetric pow_series (Str "#fff") (Str "#000") 1 0 ∅
           (reachable_start pow_series)).
  - vm_compute. reflexivity.
  - vm_compute. reflexivity.
  - right. vm_compute. discriminate.
Defined.

(** [hash_with_other_length_is_unsupported]: two characters. *)
Lemma hash_with_other_length_is_unsupported_witness :
  colorLuminance pow_series (Str "#ff") true ∅
  = (Throw (UnsupportedFormat "#ff"), ∅).
Proof.
  apply (hash_with_other_length_is_unsupported pow_series "ff" true ∅
           (cache_wf_empty pow_series)); simpl; lia.
Defined.

(** [spaces_are_ignored]: spaces in the middle of a word and of a number. *)
Lemma spaces_are_ignored_witness :
  same_outcome
    (fst (colorLuminance pow_series (Str "r g b ( 1 7 0, 85, 34 )") true ∅))
    (fst (colorLuminance pow_series (Str "rgb(170,85,34)") true ∅)).
Proof.
  apply (spaces_are_ignored pow_series "r g b ( 1 7 0, 85, 34 )"
           "rgb(170,85,34)" true ∅ (cache_wf_empty pow_series));
    vm_compute; reflexivity.
Defined.

(** [optional_a_and_alpha_one]: [rgba] with the alpha 1. *)
Lemma optional_a_and_alpha_one_witness :
  fst (colorLuminance pow_series
         (Str (rgba_text true (mkGroups "170" "85" "34" (Some "1")))) true ∅)
  = fst (colorLuminance pow_series
           (Arr [Number "170"; Number "85"; Number "34"]) true ∅).
Proof.
  apply (optional_a_and_alpha_one pow_series "170" "85" "34" true (Some "1")
           true ∅ (cache_wf_empty pow_series));
    try (vm_compute; reflexivity).
  right. reflexivity.
Defined.

(** [three_characters_are_never_rejected]: [#ggg] is NaN. *)
Lemma three_characters_are_never_rejected_witness :
  ∃ v : float,
    colorLuminance pow_series (Str (hex3 "g" "g" "g")) true ∅
    = (Ok (Num v), <[hex3 "g" "g" "g" := v]> ∅)
    ∧ (is_hex "g" && is_hex "g" && is_hex "g" = false → v = nan).
Proof.
  exact (three_characters_are_never_rejected pow_series "g" "g" "g" true ∅
           (cache_wf_empty pow_series)).
Defined.

(** [six_characters_rejected_iff_negative]: [#-10000] is rejected. *)
Lemma six_characters_rejected_iff_negative_witness :
  colorLuminance pow_series (Str (hex6 "-" "1" "0" "0" "0" "0")) true ∅
  = (Throw (UnsupportedFormat
              (bracketed [hexToByte (pair "-" "1"); hexToByte (pair "0" "0");
                          hexToByte (pair "0" "0")])), ∅).
Proof.
  exact (six_characters_rejected_iff_negative pow_series
           "-" "1" "0" "0" "0" "0" true ∅ (cache_wf_empty pow_series)).
Defined.

(** [eight_characters_opaque_iff_ff]: the two cases of the letter. *)
Lemma eight_characters_opaque_iff_ff_witness :
  fst (colorLuminance pow_series
         (Str (hex8 "a" "a" "5" "5" "2" "2" "f" "F")) true ∅)
  = fst (colorLuminance pow_series (Str (hex6 "a" "a" "5" "5" "2" "2"))
           true ∅).
Proof.
  exact (eight_characters_opaque_iff_ff pow_series
           "a" "a" "5" "5" "2" "2" "f" "F" true ∅ (cache_wf_empty pow_series)).
Defined.

(** [hooks_raise_what_the_call_raises]: a keyword in a first render. *)
Lemma hooks_raise_what_the_call_raises_witness :
  let e := UnsupportedFormat "red" in
  useColorLuminance pow_series useMemo_first_render (Str "red") ∅
  = (Throw e, ∅)
  ∧ (∀ threshold,
       useIsColorDark pow_series useMemo_first_render (Str "red") threshold ∅
       = (Throw e, ∅))
  ∧ (∀ background,
       useContrast pow_series useMemo_first_render (Str "red") background ∅
       = (Throw e, ∅))
  ∧ (∀ background threshold,
       useHasContrastOnLight pow_series useMemo_first_render (Str "red")
         background threshold ∅ = (Throw e, ∅))
  ∧ (∀ background threshold,
       useHasContrastOnDark pow_series useMemo_first_render (Str "red")
         background threshold ∅ = (Throw e, ∅)).
Proof.
  apply (hooks_raise_what_the_call_raises pow_series useMemo_first_render
           (Str "red") (UnsupportedFormat "red") ∅ first_render_computes
           (reachable_start pow_series)).
  vm_compute. reflexivity.
Defined.

(** [NaN_luminance_fails_every_check]: [#ggg] in a first render. *)
Lemma NaN_luminance_fails_every_check_witness :
  (∀ threshold,
     fst (useIsColorDark pow_series useMemo_first_render (Str "#ggg")
            threshold ∅) = Ok false)
  ∧ (∀ background,
       is_ok (fst (colorLuminance pow_series background true ∅)) = true →
       fst (useContrast pow_series useMemo_first_render (Str "#ggg")
              background ∅) = Ok nan
       ∧ fst (useContrast pow_series useMemo_first_render background
                (Str "#ggg") ∅) = Ok nan)
  ∧ (∀ background threshold,
       (∀ b, background = Some b →
             is_ok (fst (colorLuminance pow_series b true ∅)) = true) →
       fst (useHasContrastOnLight pow_series useMemo_first_render
              (Str "#ggg") background threshold ∅) = Ok false
       ∧ fst (useHasContrastOnDark pow_series useMemo_first_render
                (Str "#ggg") background threshold ∅) = Ok false).
Proof.
  apply (NaN_luminance_fails_every_check pow_series useMemo_first_render
           (Str "#ggg") ∅ first_render_computes (reachable_start pow_series)).
  vm_compute. reflexivity.
Defined.

(** [has_contrast_on_dark_by_default]: white, with the default threshold. *)
Lemma has_contrast_on_dark_by_default_witness :
  fst (useHasContrastOnDark pow_series useMemo_first_render (Str "#fff")
         None None ∅)
  = Ok (AA_THRESHOLD_CONTRAST <? (1 + 0.05) / 0.05).
Proof.
  apply (has_contrast_on_dark_by_default pow_series useMemo_first_render
           (Str "#fff") 1 None ∅ first_render_computes
           (reachable_start pow_series));
    vm_compute; reflexivity.
Defined.

(** [components_up_to_ten_are_linear]: the two sides of the threshold. *)
Lemma components_up_to_ten_are_linear_witness :
  colorLuminance pow_series (Arr [10; 11; 0]) true ∅
  = (Ok (Num (0.2126 * (10 / 255 / 12.92)
              + 0.7152 * pow_series ((11 / 255 + 0.055) / 1.055) 2.4
              + 0.0722 * (0 / 255 / 12.92))), ∅).
Proof.
  apply (components_up_to_ten_are_linear pow_series 10 11 0 true ∅); lia.
Defined.

(** [inherited_name_returns_the_member]: [constructor], against black. *)
Lemma inherited_name_returns_the_member_witness :
  colorLuminance pow_series (Str "constructor") true ∅
  = (Ok (Member "constructor"), ∅)
  ∧ colorLuminance pow_series (Str "constructor") false ∅
    = (Throw (UnsupportedFormat "constructor"), ∅)
  ∧ (is_ok (fst (colorLuminance pow_series (Str "#000") true ∅)) = true →
     fst (contrast pow_series (Str "constructor") (Str "#000") ∅) = Ok nan
     ∧ fst (contrast pow_series (Str "#000") (Str "constructor") ∅) = Ok nan).
Proof.
  apply (inherited_name_returns_the_member pow_series "constructor"
           (Str "#000") ∅ (reachable_start pow_series)).
  vm_compute. reflexivity.
Defined.
